(** * economist.py: issue-to-book pipeline

    A shallow embedding of [src/economist.py] and the properties its
    specification states about it.

    - Python [float] is IEEE-754 binary64; it is modelled by the Standard
      Library's executable specification [SpecFloat] at precision 53 and
      maximal exponent 1024, so [/], [*], [round] and [int] compute the very
      values CPython computes.
    - The sqlite table [articles(url PRIMARY KEY, html)] is a [gmap] from
      urls to html; the [images] directory is a [gmap] from file names to
      stored images.
    - Python exceptions are an explicit error result; state changes made
      before an exception is raised persist, as they do in Python. *)

From Stdlib Require Import ZArith Ascii String Floats.SpecFloat.
From stdpp Require Import gmap strings list.

Open Scope Z_scope.

(** ** Python exceptions and results *)

Inductive exn :=
  | IntegrityError          (* sqlite3: UNIQUE constraint failed *)
  | OperationalError        (* sqlite3: any other storage failure *)
  | RequestException        (* requests: timeout, connection, non-2xx status *)
  | UnidentifiedImageError  (* PIL: bytes are not an image *)
  | SaveError               (* PIL: image.save failed *)
  | ExtractionError         (* BeautifulSoup / newspaper failure *)
  | ZeroDivisionError
  | ValueError
  | OverflowError
  | IndexError
  | OSError.

Inductive result (A : Type) :=
  | Ok (a : A)
  | Raise (e : exn).
Arguments Ok {A} a.
Arguments Raise {A} e.

#[global] Instance result_ret : MRet result := λ A a, Ok a.
#[global] Instance result_bind : MBind result := λ A B f r,
  match r with
  | Ok a => f a
  | Raise e => Raise e
  end.

(** ** Python numbers *)

Module PyFloat.

Definition prec : Z := 53.
Definition emax : Z := 1024.

(** [float(n)] for an [int] n; exact whenever |n| < 2^53. *)
Definition of_int (n : Z) : spec_float := binary_normalize prec emax n 0 false.

Definition is_zero (x : spec_float) : bool :=
  match x with S754_zero _ => true | _ => false end.

(** [x / y] on floats: [ZeroDivisionError] on a zero divisor. *)
Definition div (x y : spec_float) : result spec_float :=
  if is_zero y then Raise ZeroDivisionError else Ok (SFdiv prec emax x y).

(** [a / b] on ints (true division).  For operands below 2^53, as every
    length and image dimension here is, CPython's correctly rounded
    quotient is the binary64 quotient of the two converted operands. *)
Definition truediv (a b : Z) : result spec_float :=
  if b =? 0 then Raise ZeroDivisionError else Ok (SFdiv prec emax (of_int a) (of_int b)).

(** [i * x] for an [int] i and a [float] x. *)
Definition mul_int (i : Z) (x : spec_float) : spec_float :=
  SFmul prec emax (of_int i) x.

(** [n / x] for an [int] n and a [float] x. *)
Definition int_div (n : Z) (x : spec_float) : result spec_float :=
  div (of_int n) x.

Definition sign (s : bool) (n : Z) : Z := if s then - n else n.

(** The sign bit is clear (or the value is not a number). *)
Definition is_nonneg (x : spec_float) : bool :=
  match x with
  | S754_zero s | S754_infinity s | S754_finite s _ _ => negb s
  | S754_nan => true
  end.

(** The float [2.0]. *)
Definition two : spec_float := S754_finite false 4503599627370496 (-51).

(** [int(x)]: truncation toward zero. *)
Definition to_int (x : spec_float) : result Z :=
  match x with
  | S754_zero _ => Ok 0
  | S754_infinity _ => Raise OverflowError
  | S754_nan => Raise ValueError
  | S754_finite s m e =>
      Ok (sign s (if 0 <=? e then Z.shiftl (Zpos m) e
                  else Z.shiftr (Zpos m) (- e)))
  end.

(** [round(x)] with one argument: nearest integer, ties to even. *)
Definition round (x : spec_float) : result Z :=
  match x with
  | S754_zero _ => Ok 0
  | S754_infinity _ => Raise OverflowError
  | S754_nan => Raise ValueError
  | S754_finite s m e =>
      if 0 <=? e then Ok (sign s (Z.shiftl (Zpos m) e))
      else
        let d := Z.shiftl 1 (- e) in
        let q := Zpos m / d in
        let r2 := 2 * (Zpos m mod d) in
        Ok (sign s (match r2 ?= d with
                    | Lt => q
                    | Gt => q + 1
                    | Eq => if Z.even q then q else q + 1
                    end))
  end.

End PyFloat.

(** [ratio = w / max_width] and [size = (max_width, int(h/ratio))] of
    [download_image]. *)
Definition resized (w h max_width : Z) : result (Z * Z) :=
  ratio ← PyFloat.truediv w max_width;
  q ← PyFloat.int_div h ratio;
  h' ← PyFloat.to_int q;
  mret (max_width, h').

(** [pos = round(i * rate) + i] of [Article.build]. *)
Definition position (i : Z) (rate : spec_float) : result Z :=
  r ← PyFloat.round (PyFloat.mul_int i rate);
  mret (r + i).

(** ** Python lists and strings *)

(** [l.insert(pos, x)]: a position past the end appends, a negative
    position counts from the end and stops at the front. *)
Definition py_insert {A} (pos : Z) (x : A) (l : list A) : list A :=
  let n := Z.of_nat (length l) in
  let p := Z.to_nat (if pos <? 0 then Z.max 0 (n + pos) else Z.min pos n) in
  take p l ++ x :: drop p l.

(** [enumerate(l, start)]. *)
Fixpoint enumerate {A} (start : Z) (l : list A) : list (Z * A) :=
  match l with
  | [] => []
  | x :: l' => (start, x) :: enumerate (start + 1) l'
  end.

(** What the image loop of [Article.build] leaves in [paragraphs] when
    every download succeeds: block after block, the i-th at
    [round(i * rate) + i] of the list as the blocks before it left it. *)
Fixpoint interleave (rate : spec_float) (i : Z) (blocks paragraphs : list string)
    : result (list string) :=
  match blocks with
  | [] => Ok paragraphs
  | b :: blocks' =>
      pos ← position i rate;
      interleave rate (i + 1) blocks' (py_insert pos b paragraphs)
  end.

(** [s.split(sep)] for a one-character separator: never the empty list. *)
Fixpoint py_split (sep : ascii) (s : string) : list string :=
  match s with
  | EmptyString => [EmptyString]
  | String c s' =>
      if Ascii.eqb c sep then EmptyString :: py_split sep s'
      else match py_split sep s' with
           | [] => [String c EmptyString]
           | w :: ws => String c w :: ws
           end
  end.

(** [sep.join(l)]. *)
Fixpoint py_join (sep : string) (l : list string) : string :=
  match l with
  | [] => ""
  | x :: l' =>
      match l' with
      | [] => x
      | _ :: _ => x +:+ sep +:+ py_join sep l'
      end
  end.

Definition newline : ascii := Ascii.ascii_of_nat 10.
Definition slash : ascii := Ascii.ascii_of_nat 47.

(** [os.path.basename(p)]: what follows the last slash. *)
Definition basename (p : string) : string := List.last (py_split slash p) "".

(** Truthiness of a value that is [None] or a [str]. *)
Definition truthy (v : option string) : bool :=
  match v with
  | None => false
  | Some s => negb (String.eqb s "")
  end.

(** ** The outside world *)

(** A decoded image: its size, and the pixel data left abstract. *)
Record image := Image { width : Z; height : Z; pixels : string }.

(** The e-book container, as far as [Economist.build] fills it. *)
Inductive epub_item :=
  | EpubHtml (title file_name lang content : string)
  | EpubImage (file_name : string) (content : image)
  | EpubNcx
  | EpubNav.

Inductive spine_entry :=
  | SpineRef (name : string)
  | SpineItem (item : epub_item).

(** [epub.Section(title, href)]. *)
Record toc_section := TocSection { toc_title : string; toc_href : string }.

Record EpubBook := Book {
  book_title : string;
  book_identifier : string;
  book_language : string;
  book_authors : list string;
  book_cover : option (string * string);
  book_items : list epub_item;
  book_toc : list (toc_section * list epub_item);
  book_spine : list spine_entry }.

(** Everything the program reads or changes outside its own objects, and
    what a test probe would count. *)
Record world := World {
  rows : gmap string string;        (* table articles: url -> html *)
  disk : gmap string image;         (* directory images/ *)
  faults : list bool;               (* storage failures still to come, one
                                       per SQL statement; none when empty *)
  selects : list string;            (* urls looked up by SELECT, in order *)
  fetched : list string;            (* urls requested over HTTP, in order *)
  opened : list string;             (* image urls decoded, in order *)
  log : list string;                (* messages passed to logging *)
  written : list (string * EpubBook) (* files written by write_epub *) }.

Definition set_rows (f : gmap string string → gmap string string) (w : world) : world :=
  World (f (rows w)) (disk w) (faults w) (selects w) (fetched w) (opened w) (log w) (written w).
Definition set_disk (f : gmap string image → gmap string image) (w : world) : world :=
  World (rows w) (f (disk w)) (faults w) (selects w) (fetched w) (opened w) (log w) (written w).
Definition set_faults (f : list bool → list bool) (w : world) : world :=
  World (rows w) (disk w) (f (faults w)) (selects w) (fetched w) (opened w) (log w) (written w).
Definition set_selects (f : list string → list string) (w : world) : world :=
  World (rows w) (disk w) (faults w) (f (selects w)) (fetched w) (opened w) (log w) (written w).
Definition set_fetched (f : list string → list string) (w : world) : world :=
  World (rows w) (disk w) (faults w) (selects w) (f (fetched w)) (opened w) (log w) (written w).
Definition set_opened (f : list string → list string) (w : world) : world :=
  World (rows w) (disk w) (faults w) (selects w) (fetched w) (f (opened w)) (log w) (written w).
Definition set_log (f : list string → list string) (w : world) : world :=
  World (rows w) (disk w) (faults w) (selects w) (fetched w) (opened w) (f (log w)) (written w).
Definition set_written (f : list (string * EpubBook) → list (string * EpubBook)) (w : world) : world :=
  World (rows w) (disk w) (faults w) (selects w) (fetched w) (opened w) (log w) (f (written w)).

(** ** Computations that change a state and may raise *)

Definition M (S A : Type) : Type := S → result A * S.

#[global] Instance M_ret {S} : MRet (M S) := λ A a s, (Ok a, s).
#[global] Instance M_bind {S} : MBind (M S) := λ A B f m s,
  match m s with
  | (Ok a, s') => f a s'
  | (Raise e, s') => (Raise e, s')
  end.

Definition raise {S A} (e : exn) : M S A := λ s, (Raise e, s).

(** A pure computation that may raise. *)
Definition pure {S A} (r : result A) : M S A := λ s, (r, s).

Definition gets {S A} (f : S → A) : M S A := λ s, (Ok (f s), s).
Definition modify {S} (f : S → S) : M S unit := λ s, (Ok tt, f s).

(** [try: body  except Exception: handler]. *)
Definition try_except {S A} (body : M S A) (handler : exn → M S A) : M S A := λ s,
  match body s with
  | (Ok a, s') => (Ok a, s')
  | (Raise e, s') => handler e s'
  end.

(** [try: body  finally: cleanup]; the exception, if any, goes on. *)
Definition try_finally {S A} (body : M S A) (cleanup : M S unit) : M S A := λ s,
  match body s with
  | (r, s') =>
      match cleanup s' with
      | (Ok _, s'') => (r, s'')
      | (Raise e, s'') => (Raise e, s'')
      end
  end.

(** [for x in l: body x]. *)
Fixpoint for_each {S A} (l : list A) (body : A → M S unit) : M S unit :=
  match l with
  | [] => mret tt
  | x :: l' => _ ← body x; for_each l' body
  end.

(** A loop that carries a value from one round to the next. *)
Fixpoint fold_each {S A B} (l : list A) (body : B → A → M S B) (acc : B) : M S B :=
  match l with
  | [] => mret acc
  | x :: l' => acc' ← body acc x; fold_each l' body acc'
  end.

Definition logging (msg : string) : M world unit := modify (set_log (λ l, l ++ [msg])).

(** ** The program's objects *)

Module Article.
Record t := Make {
  url : string;
  title : string;            (* [fetch_issue] always passes a [str] *)
  html : option string;      (* [None] is what [db.get] may hand back *)
  images : list string;
  content : string }.

(** [Article(url, title=title)]. *)
Definition new (url title : string) : t := Make url title (Some "") [] "".

Definition set_html (h : option string) (a : t) : t :=
  Make (url a) (title a) h (images a) (content a).
Definition append_image (filename : string) (a : t) : t :=
  Make (url a) (title a) (html a) (images a ++ [filename]) (content a).
Definition set_content (c : string) (a : t) : t :=
  Make (url a) (title a) (html a) (images a) c.
End Article.

Module Section.
Record t := Make { title : string; articles : list Article.t }.
End Section.

Module Economist.
Record t := Make {
  id : string;
  title : string;
  cover_img : option string;
  sections : list Section.t }.

Definition base_url : string := "http://www.economist.com".
Definition print_edition : string := base_url +:+ "/printedition/".
Definition author : string := "The Economist".
Definition language : string := "en".

(** [Economist()]; the [html] attribute is never used. *)
Definition new : t := Make "" "" None [].

Definition starts_with_slash (s : string) : bool :=
  match s with
  | String c _ => Ascii.eqb c slash
  | EmptyString => false
  end.

Definition absolute_url (url : string) : string :=
  if starts_with_slash url then base_url +:+ url else url.
End Economist.

(** What [newspaper.Article] offers after [parse()]. *)
Module newspaper.
Record Article := Parsed {
  text : string;
  images : list string;
  top_image : string }.

Definition has_top_image (a : Article) : bool := negb (String.eqb (top_image a) "").
End newspaper.

(** What the index page holds, as [fetch_issue] reads it with
    BeautifulSoup: the cover's [src] if there is a cover, and for each
    [list__item] its [list__title] and, for each [list__link], the texts of
    its spans and its [href]. *)
Record index_page := Index {
  index_cover : option string;
  index_items : list (string * list (list string * string)) }.

Definition dquote : string := String (Ascii.ascii_of_nat 34) EmptyString.

(** ['<center><img src="{}" /></center>'.format(filename)]. *)
Definition img_tag (filename : string) : string :=
  "<center><img src=" +:+ dquote +:+ filename +:+ dquote +:+ " /></center>".

(** [s[-n:]]. *)
Definition py_suffix (n : nat) (s : string) : string :=
  String.substring (String.length s - n) n s.

Definition item_file_name (it : epub_item) : string :=
  match it with
  | EpubHtml _ f _ _ => f
  | EpubImage f _ => f
  | EpubNcx => "toc.ncx"
  | EpubNav => "nav.xhtml"
  end.

Definition add_item (it : epub_item) (b : EpubBook) : EpubBook :=
  Book (book_title b) (book_identifier b) (book_language b) (book_authors b)
       (book_cover b) (book_items b ++ [it]) (book_toc b) (book_spine b).
Definition set_cover (name data : string) (b : EpubBook) : EpubBook :=
  Book (book_title b) (book_identifier b) (book_language b) (book_authors b)
       (Some (name, data)) (book_items b) (book_toc b) (book_spine b).
Definition set_toc_spine (toc : list (toc_section * list epub_item))
    (spine : list spine_entry) (b : EpubBook) : EpubBook :=
  Book (book_title b) (book_identifier b) (book_language b) (book_authors b)
       (book_cover b) (book_items b) toc spine.

(** A method runs on its object and the world. *)
Definition lift {O A} (m : M world A) : M (O * world) A := λ s,
  match m s.2 with
  | (r, w') => (r, (s.1, w'))
  end.
Definition self {O A} (f : O → A) : M (O * world) A := gets (λ s, f s.1).
Definition update {O} (f : O → O) : M (O * world) unit := modify (λ s, (f s.1, s.2)).

(** [for o in objects: method(o)]: every object keeps what the method did
    to it, also the one whose call raised. *)
Fixpoint for_each_object {O} (l : list O) (method : M (O * world) unit)
    (w : world) : result unit * (list O * world) :=
  match l with
  | [] => (Ok tt, ([], w))
  | o :: l' =>
      match method (o, w) with
      | (Ok _, (o', w')) =>
          match for_each_object l' method w' with
          | (r, (l'', w'')) => (r, (o' :: l'', w''))
          end
      | (Raise e, (o', w')) => (Raise e, (o' :: l', w'))
      end
  end.

(** ** The collaborators

    What the program calls and this repository does not contain: hashlib,
    requests against the web as it is during the run, PIL, and
    BeautifulSoup with newspaper. *)

Class Collaborators := {
  md5_hexdigest : string → string;
  web : string → option string;            (* body of a 2xx answer *)
  resolved_url : string → string;          (* [res.url] *)
  Image_open : string → option image;      (* the decoded bytes *)
  resample : image → Z → Z → option string; (* LANCZOS pixels *)
  save_ok : image → string → bool;
  extract : string → string → result newspaper.Article;
  parse_index : string → result index_page }.

(** ** The program *)

Section Program.

Context `{Collaborators}.

(** *** fetch *)

Definition fetch (url : string) : M world string :=
  _ ← modify (set_fetched (λ l, l ++ [url]));
  match web url with
  | Some body => mret body
  | None => raise RequestException
  end.

(** *** Database *)

(** Whether the SQL statement about to run hits a storage failure; the
    pending failure, if any, is used up. *)
Definition next_fault : M world bool := λ w,
  match faults w with
  | [] => (Ok false, w)
  | b :: l => (Ok b, set_faults (λ _, l) w)
  end.

(** [cursor.execute(SELECT ...)] and [cursor.fetchone()], then [row[0]]
    if there is a row. *)
Definition select_html (url : string) : M world (option string) :=
  _ ← modify (set_selects (λ l, l ++ [url]));
  bad ← next_fault;
  if bad : bool then raise OperationalError else gets (λ w, rows w !! url).

(** [cursor.execute(INSERT ...)] and [conn.commit()]. *)
Definition insert_row (url html : string) : M world unit :=
  bad ← next_fault;
  if bad : bool then raise OperationalError else
  row ← gets (λ w, rows w !! url);
  match row with
  | Some _ => raise IntegrityError
  | None => modify (set_rows (insert url html))
  end.

Definition cursor_close : M world unit := mret tt.

Definition Database_get (url : string) : M world (option string) :=
  try_finally
    (try_except (select_html url)
       (λ _, _ ← logging ("cannot get article: " +:+ url); mret None))
    cursor_close.

Definition Database_set (url html : string) : M world unit :=
  try_finally (insert_row url html) cursor_close.

(** *** download_image *)

Definition image_filename (image_url : string) : string :=
  "images/" +:+ md5_hexdigest image_url +:+ "-" +:+ basename image_url.

(** [image.resize(size, Image.LANCZOS)]; PIL may refuse a size. *)
Definition Image_resize (im : image) (size : Z * Z) : result image :=
  match resample im size.1 size.2 with
  | Some px => Ok (Image size.1 size.2 px)
  | None => Raise ValueError
  end.

(** [if w > max_width: ...] of [download_image]: the image as it is
    handed to [save]. *)
Definition fit (im : image) (max_width : Z) : result image :=
  if max_width <? width im then
    size ← resized (width im) (height im) max_width;
    Image_resize im size
  else Ok im.

Definition Image_save (im : image) (filename : string) : M world unit :=
  if save_ok im filename then modify (set_disk (insert filename im))
  else raise SaveError.

Definition download_image (image_url : string) (max_width : Z) : M world string :=
  let filename := image_filename image_url in
  present ← gets (λ w, disk w !! filename);
  match present with
  | Some _ => mret filename
  | None =>
      data ← fetch image_url;
      _ ← modify (set_opened (λ l, l ++ [image_url]));
      im ← match Image_open data with
           | Some im => mret im
           | None => raise UnidentifiedImageError
           end;
      im ← pure (fit im max_width);
      _ ← Image_save im filename;
      mret filename
  end.

(** *** Article *)

Definition Article_download : M (Article.t * world) unit :=
  url ← self Article.url;
  h ← lift (Database_get url);
  _ ← update (Article.set_html h);
  if truthy h then mret tt
  else
    t ← lift (fetch url);
    _ ← update (Article.set_html (Some t));
    lift (Database_set url t).

(** The body of [for i, img in enumerate(images, 1)]. *)
Definition space_out (rate : spec_float) (paragraphs : list string)
    (x : Z * string) : M (Article.t * world) (list string) :=
  pos ← pure (position x.1 rate);
  filename ← lift (download_image x.2 400);
  _ ← update (Article.append_image filename);
  mret (py_insert pos (img_tag filename) paragraphs).

(** [Article.build]; BeautifulSoup and newspaper together are [extract],
    which has no html to work on when [self.html] is [None]. *)
Definition Article_build : M (Article.t * world) unit :=
  _ ← Article_download;
  url ← self Article.url;
  html ← self Article.html;
  title ← self Article.title;
  article ← pure (match html with
                  | Some h => extract url h
                  | None => Raise ExtractionError
                  end);
  let content := "<h1>" +:+ title +:+ "</h1>" in
  content ← (if newspaper.has_top_image article then
               filename ← lift (download_image (newspaper.top_image article) 400);
               _ ← update (Article.append_image filename);
               mret (content +:+ img_tag filename)
             else mret content);
  let images := filter (λ i, i ≠ newspaper.top_image article) (newspaper.images article) in
  let paragraphs := py_split newline (newspaper.text article) in
  rate ← pure (PyFloat.truediv (Z.of_nat (length paragraphs)) (Z.of_nat (length images) + 1));
  paragraphs ← fold_each (enumerate 1 images) (space_out rate) paragraphs;
  update (Article.set_content (content +:+ py_join "<br>" paragraphs)).

(** *** Section *)

Definition set_articles (l : list Article.t) (s : Section.t) : Section.t :=
  Section.Make (Section.title s) l.

(** The body of [for a in self.articles]. *)
Definition build_or_log : M (Article.t * world) unit :=
  try_except Article_build (λ _, lift (logging "cannot build article")).

Definition Section_build : M (Section.t * world) unit := λ s,
  match for_each_object (Section.articles s.1) build_or_log s.2 with
  | (r, (l, w')) => (r, (set_articles l s.1, w'))
  end.

(** *** Economist *)

Definition set_issue (id title : string) (e : Economist.t) : Economist.t :=
  Economist.Make id title (Economist.cover_img e) (Economist.sections e).
Definition set_cover_img (c : option string) (e : Economist.t) : Economist.t :=
  Economist.Make (Economist.id e) (Economist.title e) c (Economist.sections e).
Definition set_sections (l : list Section.t) (e : Economist.t) : Economist.t :=
  Economist.Make (Economist.id e) (Economist.title e) (Economist.cover_img e) l.

Definition index_section (li : string * list (list string * string)) : Section.t :=
  Section.Make li.1
    (map (λ a, Article.new (Economist.absolute_url a.2) (py_join " - " a.1)) li.2).

Definition Economist_fetch_issue : M (Economist.t * world) unit :=
  html ← lift (fetch Economist.print_edition);
  let date := py_suffix 10 (resolved_url Economist.print_edition) in
  _ ← update (set_issue ("the_economist_" +:+ date) ("The Economist - " +:+ date));
  page ← pure (parse_index html);
  _ ← match index_cover page with
      | Some src => update (set_cover_img (Some src))
      | None => mret tt
      end;
  for_each (index_items page)
    (λ li, update (λ e, set_sections (Economist.sections e ++ [index_section li]) e)).

(** [for s in self.sections: s.build(self.db)]. *)
Definition build_sections : M (Economist.t * world) unit := λ s,
  match for_each_object (Economist.sections s.1) Section_build s.2 with
  | (r, (l, w')) => (r, (set_sections l s.1, w'))
  end.

(** [open(filename, 'rb').read()]. *)
Definition read_image (filename : string) : M world image :=
  file ← gets (λ w, disk w !! filename);
  match file with
  | Some im => mret im
  | None => raise OSError
  end.

(** The body of [for article in section.articles], on the book and the
    section's items so far. *)
Definition add_article (st : EpubBook * list epub_item) (article : Article.t)
    : M world (EpubBook * list epub_item) :=
  if String.eqb (Article.content article) "" then
    _ ← logging (Article.url article +:+ " could not be downloaded. Skipping.");
    mret st
  else
    let item := EpubHtml (Article.title article)
                  (Article.title article +:+ ".xhtml")
                  Economist.language (Article.content article) in
    book ← fold_each (Article.images article)
              (λ book filename,
                 img ← read_image filename;
                 mret (add_item (EpubImage filename img) book))
              st.1;
    mret (book, st.2 ++ [item]).

Definition first_item (items : list epub_item) : result epub_item :=
  match items with
  | [] => Raise IndexError
  | it :: _ => Ok it
  end.

(** The body of [for section in self.sections], on the book, the table of
    contents and the spine so far. *)
Definition add_section
    (st : EpubBook * list (toc_section * list epub_item) * list spine_entry)
    (section : Section.t)
    : M world (EpubBook * list (toc_section * list epub_item) * list spine_entry) :=
  r ← fold_each (Section.articles section) add_article (st.1.1, []);
  let items := r.2 in
  let book := fold_left (λ b it, add_item it b) items r.1 in
  first ← pure (first_item items);
  let toc := st.1.2 ++ [(TocSection (Section.title section) (item_file_name first), items)] in
  let spine := st.2 ++ map SpineItem items in
  mret (book, toc, spine).

Definition write_epub (name : string) (book : EpubBook) : M world unit :=
  modify (set_written (λ l, l ++ [(name, book)])).

(** [Economist.build] from [book = epub.EpubBook()] on: the issue and its
    built sections into a book, and the book into a file. *)
Definition assemble (e : Economist.t) : M world unit :=
  let book := Book (Economist.title e) (Economist.id e) Economist.language
                   [Economist.author] None [] [] [] in
  r ← (if truthy (Economist.cover_img e) then
         img ← fetch (default "" (Economist.cover_img e));
         mret (set_cover "image.jpg" img book, [SpineRef "cover"])
       else mret (book, []));
  let spine := r.2 ++ [SpineRef "nav"] in
  r ← fold_each (Economist.sections e) add_section (r.1, [], spine);
  let book := set_toc_spine r.1.2 r.2 r.1.1 in
  let book := add_item EpubNav (add_item EpubNcx book) in
  write_epub (Economist.id e +:+ ".epub") book.

(** [Economist.build]; [info] only prints. *)
Definition Economist_build : M (Economist.t * world) unit :=
  _ ← Economist_fetch_issue;
  _ ← build_sections;
  e ← self id;
  lift (assemble e).

End Program.

(** ** A small world to run the program in *)

Module Demo.

Fixpoint assoc {A} (table : list (string * A)) (k : string) : option A :=
  match table with
  | [] => None
  | (k', v) :: table' => if String.eqb k k' then Some v else assoc table' k
  end.

Definition lines (l : list string) : string := py_join (String newline "") l.

Definition pages : list (string * string) :=
  [ ("http://e.com/one", "<article>one</article>");
    ("http://e.com/six", "<article>six</article>");
    ("http://e.com/plain", "<article>plain</article>");
    ("http://e.com/a.jpg", "jpeg 800x3");
    ("http://e.com/b.jpg", "jpeg 300x200");
    ("http://e.com/c.jpg", "jpeg 1200x5") ].

Definition pictures : list (string * image) :=
  [ ("jpeg 800x3", Image 800 3 "a");
    ("jpeg 300x200", Image 300 200 "b");
    ("jpeg 1200x5", Image 1200 5 "c") ].

Definition parsed : list (string * newspaper.Article) :=
  [ ("<article>one</article>",
     newspaper.Parsed "p1" ["http://e.com/a.jpg"; "http://e.com/b.jpg"] "");
    ("<article>six</article>",
     newspaper.Parsed (lines ["p1"; "p2"; "p3"; "p4"; "p5"; "p6"])
       ["http://e.com/a.jpg"; "http://e.com/b.jpg"] "");
    ("<article>plain</article>", newspaper.Parsed "hello" [] "") ].

Definition env : Collaborators := {|
  md5_hexdigest u := "0cc1";
  web := assoc pages;
  resolved_url u := u +:+ "2017-01-07";
  Image_open := assoc pictures;
  resample im w h := if (1 <=? w) && (1 <=? h) then Some (pixels im) else None;
  save_ok im filename := true;
  extract url html :=
    match assoc parsed html with
    | Some a => Ok a
    | None => Raise ExtractionError
    end;
  parse_index html := Raise ExtractionError |}.

Definition empty : world := World ∅ ∅ [] [] [] [] [] [].

Definition one : Article.t := Article.new "http://e.com/one" "One".
Definition six : Article.t := Article.new "http://e.com/six" "Six".
Definition plain : Article.t := Article.new "http://e.com/plain" "Plain".
Definition gone : Article.t := Article.new "http://e.com/gone" "Gone".
Definition lost : Article.t := Article.new "http://e.com/lost" "Lost".

(** A table that holds the empty string for a url. *)
Definition stale : world :=
  World {[ "http://e.com/plain" := "" ]} ∅ [] [] [] [] [] [].

Definition leaders : Section.t := Section.Make "Leaders" [plain; gone; six].

(** An issue with a cover that cannot be fetched. *)
Definition covered : Economist.t :=
  Economist.Make "the_economist_2017-01-07" "The Economist - 2017-01-07"
    (Some "http://e.com/cover.jpg") [leaders].


(** The same issue with a second section, of articles that cannot be
    fetched. *)
Definition mixed : Economist.t :=
  Economist.Make "the_economist_2017-01-07" "The Economist - 2017-01-07" None
    [leaders; Section.Make "Briefing" [gone; lost]].

(** A table that holds a page. *)
Definition warm : world :=
  World {[ "http://e.com/plain" := "<article>plain</article>" ]} ∅ [] [] [] [] [] [].

(** An issue whose only section holds two articles that cannot be
    fetched. *)
Definition issue : Economist.t :=
  Economist.Make "the_economist_2017-01-07" "The Economist - 2017-01-07" None
    [Section.Make "Briefing" [gone; lost]].

End Demo.

(** ** A small site with an index page *)

Module Site.

Definition index : index_page :=
  Index (Some "http://e.com/cover.jpg")
    [ ("Leaders", [ (["Plain"], "/plain"); (["Six"; "paragraphs"], "http://e.com/six") ]);
      ("Briefing", [ (["Hello"], "/hello") ]) ].

Definition pages : list (string * string) :=
  [ ("http://www.economist.com/printedition/", "<index>");
    ("http://www.economist.com/plain", "<article>plain</article>");
    ("http://www.economist.com/hello", "<article>plain</article>");
    ("http://e.com/six", "<article>six</article>");
    ("http://e.com/a.jpg", "jpeg 800x3");
    ("http://e.com/b.jpg", "jpeg 300x200");
    ("http://e.com/cover.jpg", "jpeg cover") ].

Definition env : Collaborators := {|
  md5_hexdigest u := "0cc1";
  web := Demo.assoc pages;
  resolved_url u := u +:+ "2017-01-07";
  Image_open := Demo.assoc Demo.pictures;
  resample im w h := if (1 <=? w) && (1 <=? h) then Some (pixels im) else None;
  save_ok im filename := true;
  extract url html :=
    match Demo.assoc Demo.parsed html with
    | Some a => Ok a
    | None => Raise ExtractionError
    end;
  parse_index html :=
    if String.eqb html "<index>" then Ok index else Raise ExtractionError |}.

End Site.

(** ** Words for the statements *)

(** A storage failure is pending for the next SQL statement. *)
Definition failing (w : world) : bool :=
  match faults w with
  | true :: _ => true
  | _ => false
  end.

(** What [Database.get] hands back in a world. *)
Definition seen (url : string) (w : world) : option string :=
  if failing w then None else rows w !! url.

(** The world [Database.get] leaves. *)
Definition after_get (url : string) (w : world) : world :=
  let w' := set_faults (drop 1) (set_selects (λ l, l ++ [url]) w) in
  if failing w then set_log (λ l, l ++ ["cannot get article: " +:+ url]) w' else w'.

(** Two states of an article that differ at most in the images. *)
Definition same_but_images (a a' : Article.t) : Prop :=
  Article.url a' = Article.url a ∧ Article.title a' = Article.title a ∧
  Article.html a' = Article.html a ∧ Article.content a' = Article.content a.

(** The image block of an image url. *)
Definition block `{Collaborators} (image_url : string) : string :=
  img_tag (image_filename image_url).

(** The second world is the first with, at most, more in it: every cached
    page and every stored image is still there, unchanged, and every trace
    has only been extended. *)
Definition grows (w w' : world) : Prop :=
  rows w ⊆ rows w' ∧ disk w ⊆ disk w' ∧
  selects w `prefix_of` selects w' ∧ fetched w `prefix_of` fetched w' ∧
  opened w `prefix_of` opened w' ∧ log w `prefix_of` log w' ∧
  written w `prefix_of` written w'.

(** Every image the article lists is a file on disk. *)
Definition stored (w : world) (a : Article.t) : Prop :=
  Forall (λ f, is_Some (disk w !! f)) (Article.images a).

(** [article.content] is truthy. *)
Definition has_content (a : Article.t) : bool :=
  negb (String.eqb (Article.content a) "").

(** The content document of an article. *)
Definition content_item (a : Article.t) : epub_item :=
  EpubHtml (Article.title a) (Article.title a +:+ ".xhtml")
    Economist.language (Article.content a).

(** The content documents of a section: one per article with content, in
    the order of the articles. *)
Definition section_items (s : Section.t) : list epub_item :=
  map content_item (List.filter has_content (Section.articles s)).

(** The image items of an article, as read from a disk. *)
Definition image_items (d : gmap string image) (a : Article.t) : list epub_item :=
  omap (λ f, EpubImage f <$> d !! f) (Article.images a).

(** What a section adds to the book's items: the images of its articles
    with content, then its content documents. *)
Definition section_book_items (d : gmap string image) (s : Section.t) : list epub_item :=
  concat (map (image_items d) (List.filter has_content (Section.articles s)))
  ++ section_items s.

(** The table-of-contents entry of a section. *)
Definition section_toc (s : Section.t) : toc_section * list epub_item :=
  (TocSection (Section.title s)
     (match section_items s with
      | it :: _ => item_file_name it
      | [] => ""
      end),
   section_items s).

(** The book of an issue whose sections are built, with the cover's bytes
    if a cover was fetched. *)
Definition expected_book (e : Economist.t) (cover : option string)
    (d : gmap string image) : EpubBook :=
  Book (Economist.title e) (Economist.id e) Economist.language [Economist.author]
    (match cover with
     | Some img => Some ("image.jpg", img)
     | None => None
     end)
    (concat (map (section_book_items d) (Economist.sections e)) ++ [EpubNcx; EpubNav])
    (map section_toc (Economist.sections e))
    ((match cover with
      | Some _ => [SpineRef "cover"]
      | None => []
      end) ++ SpineRef "nav"
           :: map SpineItem (concat (map section_items (Economist.sections e)))).

(** An article as [fetch_issue] creates it. *)
Definition fresh (a : Article.t) : Prop :=
  Article.images a = [] ∧ Article.content a = "".

(** [for item in its: book.add_item(item)]. *)
Definition add_items (its : list epub_item) (b : EpubBook) : EpubBook :=
  fold_left (λ b it, add_item it b) its b.

(** The state holds an article with the url, the title and the content
    of [a]. *)
Definition identity_kept (a : Article.t) (s : Article.t * world) : Prop :=
  Article.url s.1 = Article.url a ∧ Article.title s.1 = Article.title a ∧
  Article.content s.1 = Article.content a.

(** The issue after [fetch_issue] has read the index page. *)
Definition discovered `{Collaborators} (e : Economist.t) (page : index_page) : Economist.t :=
  let date := py_suffix 10 (resolved_url Economist.print_edition) in
  Economist.Make ("the_economist_" +:+ date) ("The Economist - " +:+ date)
    (match index_cover page with
     | Some src => Some src
     | None => Economist.cover_img e
     end)
    (Economist.sections e ++ map index_section (index_items page)).

(** The outcome of a method on an article that began as [a]: url and
    title are those of [a], and so is the content if the method raised. *)
Definition kept_unless_ok {B} (a : Article.t) (r : result B * (Article.t * world)) : Prop :=
  Article.url r.2.1 = Article.url a ∧ Article.title r.2.1 = Article.title a ∧
  ∀ e, r.1 = Raise e → Article.content r.2.1 = Article.content a.

(** An article after a build attempt, against the article before it. *)
Definition attempted (a a' : Article.t) : Prop :=
  Article.url a' = Article.url a ∧ Article.title a' = Article.title a ∧
  (Article.content a' = Article.content a ∨ Article.content a' ≠ "").

(** Every section has a content document, as a test. *)
Definition all_have_items (l : list Section.t) : bool :=
  forallb (λ s, match section_items s with [] => false | _ :: _ => true end) l.

(** * Properties *)

(** ** Running a computation step by step *)

Lemma bind_ok {S A B} (m : M S A) (k : A → M S B) s b s' :
  (m ≫= k) s = (Ok b, s') ↔ ∃ a s1, m s = (Ok a, s1) ∧ k a s1 = (Ok b, s').
Proof.
  unfold mbind, M_bind. split.
  - destruct (m s) as [[a|e] s1]; [eauto | discriminate].
  - intros (a & s1 & -> & Hk). exact Hk.
Qed.

Lemma bind_raise {S A B} (m : M S A) (k : A → M S B) s e s' :
  (m ≫= k) s = (Raise e, s') ↔
  m s = (Raise e, s') ∨ ∃ a s1, m s = (Ok a, s1) ∧ k a s1 = (Raise e, s').
Proof.
  unfold mbind, M_bind. split.
  - destruct (m s) as [[a|e'] s1]; [eauto | intros [= -> ->]; auto].
  - intros [-> | (a & s1 & -> & Hk)]; [reflexivity | exact Hk].
Qed.

Lemma bind_step {S A B} (m : M S A) (k : A → M S B) s a s1 :
  m s = (Ok a, s1) → (m ≫= k) s = k a s1.
Proof. unfold mbind, M_bind. intros ->. reflexivity. Qed.

Lemma bind_stop {S A B} (m : M S A) (k : A → M S B) s e s1 :
  m s = (Raise e, s1) → (m ≫= k) s = (Raise e, s1).
Proof. unfold mbind, M_bind. intros ->. reflexivity. Qed.

Lemma lift_run {O A} (m : M world A) (o : O) w :
  lift m (o, w) = ((m w).1, (o, (m w).2)).
Proof. unfold lift. simpl. destruct (m w); reflexivity. Qed.

Lemma pure_ok {S A} (r : result A) (s s' : S) a :
  pure r s = (Ok a, s') ↔ r = Ok a ∧ s' = s.
Proof. unfold pure. split; [intros [= -> ->]; auto | intros [-> ->]; auto]. Qed.

(** Unfold the state operations in the goal and compute. *)
Ltac run :=
  unfold gets, modify, pure, raise, self, update, logging, try_except,
    try_finally; simpl.

(** Split a hypothesis [(x ← m; k) s = (Ok b, s')] into its two runs. *)
Ltac split_bind H a s1 Hm :=
  apply bind_ok in H; destruct H as (a & s1 & Hm & H).

(** ** Floats: integers below 2^53 and division by two *)

Lemma digits2_pos_iter (p n : positive) :
  digits2_pos (Pos.iter xO p n) = (digits2_pos p + n)%positive.
Proof.
  revert p. induction n using Pos.peano_ind; intros p.
  - simpl. lia.
  - rewrite Pos.iter_succ. simpl. rewrite IHn. lia.
Qed.

Lemma Zpos_iter (p n : positive) : Zpos (Pos.iter xO p n) = Zpos p * 2 ^ Zpos n.
Proof.
  revert p. induction n using Pos.peano_ind; intros p.
  - simpl. lia.
  - rewrite Pos.iter_succ. rewrite Pos2Z.inj_xO, IHn, Pos2Z.inj_succ, Z.pow_succ_r by lia. lia.
Qed.

Lemma digits2_pos_le (p : positive) n : 0 <= n -> Zpos p < 2 ^ n -> Zpos (digits2_pos p) <= n.
Proof.
  revert n. induction p; intros n Hn Hp; simpl digits2_pos.
  - destruct (Z.eq_dec n 0) as [->|]; [simpl in Hp; lia|].
    replace n with (Z.succ (n - 1)) in Hp by lia. rewrite Z.pow_succ_r in Hp by lia.
    specialize (IHp (n - 1)). lia.
  - destruct (Z.eq_dec n 0) as [->|]; [simpl in Hp; lia|].
    replace n with (Z.succ (n - 1)) in Hp by lia. rewrite Z.pow_succ_r in Hp by lia.
    specialize (IHp (n - 1)). lia.
  - destruct (Z.eq_dec n 0) as [->|]; [simpl in Hp; lia|]. lia.
Qed.

Lemma binary_round_aux_exact s m e :
  digits2_pos m = 53%positive -> -1074 <= e <= 971 ->
  binary_round_aux 53 1024 s (Zpos m) e loc_Exact = S754_finite s m e.
Proof.
  intros Hd He. unfold binary_round_aux, shr_fexp, fexp, emin. cbn [Zdigits2 shr_record_of_loc].
  rewrite Hd.
  replace (Z.max (53 + e - 53) (3 - 1024 - 53) - e) with 0 by lia.
  cbn [shr shr_m loc_of_shr_record round_nearest_even Zdigits2 shr_record_of_loc].
  rewrite Hd.
  replace (Z.max (53 + e - 53) (3 - 1024 - 53) - e) with 0 by lia.
  cbn [shr shr_m].
  replace (e <=? 1024 - 53) with true by (symmetry; apply Z.leb_le; lia).
  reflexivity.
Qed.

Lemma of_int_pos (p : positive) :
  Zpos p < 2 ^ 53 ->
  exists m, PyFloat.of_int (Zpos p) = S754_finite false m (Zpos (digits2_pos p) - 53)
    /\ digits2_pos m = 53%positive
    /\ Zpos m = Zpos p * 2 ^ (53 - Zpos (digits2_pos p)).
Proof.
  intros Hp. pose proof (digits2_pos_le p 53 ltac:(lia) Hp) as Hd.
  unfold PyFloat.of_int, binary_normalize, binary_round, shl_align, fexp, emin, PyFloat.prec, PyFloat.emax.
  replace (Z.max (Zpos (digits2_pos p) + 0 - 53) (3 - 1024 - 53) - 0) with (Zpos (digits2_pos p) - 53) by lia.
  destruct (Zpos (digits2_pos p) - 53) as [|q|q] eqn:Hq; [|lia|].
  - exists p. rewrite binary_round_aux_exact by lia.
    replace (Zpos (digits2_pos p)) with 53 by lia. 
    split; [reflexivity|]. split; [lia|]. simpl. lia.
  - exists (Pos.iter xO p q).
    replace (Z.max (Zpos (digits2_pos p) + 0 - 53) (3 - 1024 - 53)) with (Zpos (digits2_pos p) - 53) by lia.
    rewrite binary_round_aux_exact; [| rewrite digits2_pos_iter; lia | lia].
    rewrite Hq. split; [reflexivity|]. split; [rewrite digits2_pos_iter; lia|].
    rewrite Zpos_iter. f_equal. f_equal. lia.
Qed.

Lemma truediv_800_400 : PyFloat.truediv 800 400 = Ok PyFloat.two.
Proof. vm_compute. reflexivity. Qed.

Lemma div_two m e :
  digits2_pos m = 53%positive -> -1072 <= e <= 972 ->
  SFdiv 53 1024 (S754_finite false m e) PyFloat.two = S754_finite false m (e - 1).
Proof.
  intros Hd He. unfold PyFloat.two, SFdiv, SFdiv_core_binary, fexp, emin.
  cbn [Zdigits2 xorb]. rewrite Hd.
  change (Z.pos (digits2_pos 4503599627370496)) with 53.
  replace (Z.min (Z.max (53 + e - (53 + -51) - 53) (3 - 1024 - 53)) (e - -51)) with (e - 2) by lia.
  replace (e - -51 - (e - 2)) with 53 by lia.
  assert (Hdiv : Z.div_eucl (Z.shiftl (Z.pos m) 53) 4503599627370496 = (Z.pos m~0, 0)).
  { rewrite Z.shiftl_mul_pow2 by lia.
    pose proof (Z.div_eucl_eq (Z.pos m * 2 ^ 53) 4503599627370496 ltac:(lia)) as Heq.
    pose proof (Z.mod_pos_bound (Z.pos m * 2 ^ 53) 4503599627370496 ltac:(lia)) as Hb.
    unfold Z.modulo in Hb.
    destruct (Z.div_eucl (Z.pos m * 2 ^ 53) 4503599627370496) as [q r].
    change (2 ^ 53) with (2 * 4503599627370496) in Heq.
    assert (q = 2 * Z.pos m) by nia. assert (r = 0) by nia. subst. reflexivity. }
  rewrite Hdiv.
  change (new_location 4503599627370496 0) with loc_Exact.
  unfold binary_round_aux, shr_fexp, fexp, emin.
  cbn [shr_record_of_loc].
  change (Zdigits2 (Z.pos m~0)) with (Z.pos (Pos.succ (digits2_pos m))). rewrite Hd.
  replace (Z.max (Z.pos (Pos.succ 53) + (e - 2) - 53) (3 - 1024 - 53) - (e - 2)) with 1 by lia.
  cbn [shr SpecFloat.iter_pos shr_1 shr_m loc_of_shr_record orb round_nearest_even Zdigits2 shr_record_of_loc].
  rewrite Hd.
  replace (Z.max (53 + (e - 2 + 1) - 53) (3 - 1024 - 53) - (e - 2 + 1)) with 0 by lia.
  cbn [shr shr_m].
  replace (e - 2 + 1 <=? 1024 - 53) with true by (symmetry; apply Z.leb_le; lia).
  f_equal. lia.
Qed.

(** An image 800 wide shrunk to 400: half the height, rounded down. *)
Lemma resized_800_400 (h : Z) : 0 < h < 2 ^ 53 -> resized 800 h 400 = Ok (400, h / 2).
Proof.
  intros Hh. unfold resized. rewrite truediv_800_400.
  destruct h as [|p|p]; [lia| |lia].
  destruct (of_int_pos p ltac:(lia)) as (m & Hm & Hd & Hv).
  pose proof (digits2_pos_le p 53 ltac:(lia) ltac:(lia)) as Hle.
  unfold mbind, result_bind, mret, result_ret.
  unfold PyFloat.int_div, PyFloat.div. rewrite Hm. cbn [PyFloat.is_zero PyFloat.two].
  fold PyFloat.two. unfold PyFloat.prec, PyFloat.emax. rewrite div_two by (auto; lia).
  unfold PyFloat.to_int, PyFloat.sign.
  replace (0 <=? Z.pos (digits2_pos p) - 53 - 1) with false by (symmetry; apply Z.leb_gt; lia).
  rewrite Z.shiftr_div_pow2 by lia. rewrite Hv.
  replace (- (Z.pos (digits2_pos p) - 53 - 1)) with (Z.succ (53 - Z.pos (digits2_pos p))) by lia.
  rewrite Z.pow_succ_r by lia.
  rewrite Z.div_mul_cancel_r; [reflexivity | lia | apply Z.pow_nonzero; lia].
Qed.


(** ** Floats: signs *)

Lemma binary_round_aux_nonneg m e l :
  PyFloat.is_nonneg (binary_round_aux 53 1024 false m e l) = true.
Proof.
  unfold binary_round_aux.
  destruct (shr_fexp _ _ _ _ _) as [mrs' e'].
  destruct (shr_fexp _ _ _ _ _) as [mrs'' e''].
  destruct (shr_m mrs''); try reflexivity.
  destruct (e'' <=? 1024 - 53); reflexivity.
Qed.

Lemma of_int_nonneg n : 0 <= n → PyFloat.is_nonneg (PyFloat.of_int n) = true.
Proof.
  intros Hn. unfold PyFloat.of_int, binary_normalize.
  destruct n as [|p|p]; [reflexivity| |lia].
  unfold binary_round. destruct (shl_align _ _ _) as [mz ez].
  apply binary_round_aux_nonneg.
Qed.

Lemma SFdiv_nonneg x y :
  PyFloat.is_nonneg x = true → PyFloat.is_nonneg y = true →
  PyFloat.is_nonneg (SFdiv 53 1024 x y) = true.
Proof.
  destruct x as [[]|[]| |[] mx ex], y as [[]|[]| |[] my ey]; simpl;
    try discriminate; try reflexivity.
  intros _ _. destruct (SFdiv_core_binary _ _ _ _ _ _) as [[mz ez] lz].
  apply binary_round_aux_nonneg.
Qed.

Lemma SFmul_nonneg x y :
  PyFloat.is_nonneg x = true → PyFloat.is_nonneg y = true →
  PyFloat.is_nonneg (SFmul 53 1024 x y) = true.
Proof.
  destruct x as [[]|[]| |[] mx ex], y as [[]|[]| |[] my ey]; simpl;
    try discriminate; try reflexivity.
  intros _ _. apply binary_round_aux_nonneg.
Qed.

Lemma truediv_nonneg a b rate :
  0 <= a → 0 <= b → PyFloat.truediv a b = Ok rate → PyFloat.is_nonneg rate = true.
Proof.
  intros Ha Hb. unfold PyFloat.truediv. destruct (b =? 0); [discriminate|].
  intros [= <-]. apply SFdiv_nonneg; apply of_int_nonneg; assumption.
Qed.

Lemma round_nonneg x r :
  PyFloat.is_nonneg x = true → PyFloat.round x = Ok r → 0 <= r.
Proof.
  destruct x as [s|s| |s m e]; simpl; try discriminate.
  - intros _ [= <-]. lia.
  - destruct s; [discriminate|]. intros _.
    destruct (Z.leb_spec 0 e) as [He|He].
    + intros [= <-]. simpl. apply Z.shiftl_nonneg. lia.
    + intros [= <-]. unfold PyFloat.sign.
      assert (0 < Z.shiftl 1 (- e))
        by (rewrite Z.shiftl_1_l; apply Z.pow_pos_nonneg; lia).
      assert (0 <= Z.pos m / Z.shiftl 1 (- e)) by (apply Z.div_pos; lia).
      destruct (_ ?= _); [destruct (Z.even _)| |]; lia.
Qed.

(** A position is never before the image's own index. *)
Lemma position_from_index i rate pos :
  0 <= i → PyFloat.is_nonneg rate = true → position i rate = Ok pos → i <= pos.
Proof.
  intros Hi Hr. unfold position, mbind, result_bind, mret, result_ret.
  destruct (PyFloat.round _) as [r|] eqn:Hround; [|discriminate].
  intros [= <-]. apply round_nonneg in Hround; [lia|].
  apply SFmul_nonneg; [apply of_int_nonneg; lia | exact Hr].
Qed.

(** ** Python lists *)

(** Where [insert] puts the element: at the position, or at the end when
    the position is past it; the rest keeps its order around it. *)
Lemma py_insert_at {A} (pos : Z) (x : A) (l : list A) :
  0 <= pos →
  let p := Z.to_nat (Z.min pos (Z.of_nat (length l))) in
  py_insert pos x l !! p = Some x ∧
  take p (py_insert pos x l) = take p l ∧
  drop (S p) (py_insert pos x l) = drop p l ∧
  length (py_insert pos x l) = S (length l).
Proof.
  intros Hpos p. unfold py_insert.
  replace (pos <? 0) with false by (symmetry; apply Z.ltb_ge; lia).
  fold p. assert (Hp : (p ≤ length l)%nat) by (unfold p; lia).
  assert (Hlen : length (take p l) = p) by (rewrite length_take; lia).
  split; [|split; [|split]].
  - rewrite lookup_app_r by lia. rewrite Hlen, Nat.sub_diag. reflexivity.
  - rewrite take_app_le by lia. rewrite take_take. f_equal. lia.
  - rewrite drop_app_ge by lia. rewrite Hlen.
    replace (S p - p)%nat with 1%nat by lia. reflexivity.
  - rewrite length_app. simpl. rewrite Hlen, length_drop. lia.
Qed.

(** ** download_image *)

Section Images.

Context `{Collaborators}.

(** The file is there: the path at once, and the world as it was. *)
Lemma download_image_hit u mw w :
  is_Some (disk w !! image_filename u) →
  download_image u mw w = (Ok (image_filename u), w).
Proof.
  intros [im Him]. unfold download_image. run.
  unfold mbind, M_bind, mret, M_ret. rewrite Him. reflexivity.
Qed.

(** The file is not there and every collaborator succeeds. *)
Lemma download_image_miss u mw w data im im' :
  disk w !! image_filename u = None →
  web u = Some data → Image_open data = Some im →
  fit im mw = Ok im' → save_ok im' (image_filename u) = true →
  download_image u mw w =
    (Ok (image_filename u),
     set_disk (insert (image_filename u) im')
       (set_opened (λ l, l ++ [u]) (set_fetched (λ l, l ++ [u]) w))).
Proof.
  intros Hd Hw Ho Hf Hs. unfold download_image, fetch, Image_save. run.
  unfold mbind, M_bind, mret, M_ret. run.
  rewrite Hd, Hw. simpl. rewrite Ho, Hf. simpl. rewrite Hs. reflexivity.
Qed.

(** A call that returns has either found the file or made it. *)
Lemma download_image_ok u mw w p w1 :
  download_image u mw w = (Ok p, w1) →
  p = image_filename u ∧
  (is_Some (disk w !! p) ∧ w1 = w ∨
   disk w !! p = None ∧ ∃ data im im',
     web u = Some data ∧ Image_open data = Some im ∧
     fit im mw = Ok im' ∧ save_ok im' p = true ∧
     w1 = set_disk (insert p im')
            (set_opened (λ l, l ++ [u]) (set_fetched (λ l, l ++ [u]) w))).
Proof.
  unfold download_image, fetch, Image_save. run.
  unfold mbind, M_bind, mret, M_ret. run.
  destruct (disk w !! image_filename u) as [im0|] eqn:Hd.
  { intros [= <- <-]. rewrite Hd. eauto. }
  destruct (web u) as [data|] eqn:Hw; simpl; [|discriminate].
  destruct (Image_open data) as [im|] eqn:Ho; simpl; [|discriminate].
  destruct (fit im mw) as [im'|e] eqn:Hf; simpl; [|discriminate].
  destruct (save_ok im' (image_filename u)) eqn:Hs; simpl; [|discriminate].
  intros [= <- <-]. split; [reflexivity|]. right.
  split; [exact Hd|]. exists data, im, im'. auto.
Qed.

(** C6. [download_image] is idempotent: a call that returns has returned
    the deterministic path; a call that finds the file returns the path at
    once, without fetching or decoding; so the next call returns the same
    path and changes nothing, and the two calls together fetch and decode
    at most once. *)
Theorem download_image_idempotent (u : string) (mw : Z) (w w1 : world) (p : string) :
  download_image u mw w = (Ok p, w1) →
  p = image_filename u ∧
  download_image u mw w1 = (Ok p, w1) ∧
  match disk w !! p with
  | Some _ => w1 = w
  | None => fetched w1 = fetched w ++ [u] ∧ opened w1 = opened w ++ [u]
  end ∧
  ∀ w0, is_Some (disk w0 !! image_filename u) →
        download_image u mw w0 = (Ok (image_filename u), w0).
Proof.
  intros Hrun. destruct (download_image_ok _ _ _ _ _ Hrun) as [-> Hcases].
  split; [reflexivity|].
  destruct Hcases as [[[im0 Him0] ->] | (Hnone & data & im & im' & _ & _ & _ & _ & ->)].
  - split; [apply download_image_hit; eauto|].
    rewrite Him0. split; [reflexivity|]. intros w0. apply download_image_hit.
  - split.
    + apply download_image_hit. simpl. rewrite lookup_insert_eq. eauto.
    + rewrite Hnone. simpl. split; [auto|]. intros w0. apply download_image_hit.
Qed.

(** C4 (as the code has it). A decodable image wider than [max_width] is
    stored [max_width] wide and [int(h / (w / max_width))] high, the float
    quotient cut toward zero and not rounded; 800 wide at [max_width] 400
    that is [h // 2].  An image no wider than [max_width] is stored as
    decoded. *)
Theorem download_image_resizes (u : string) (mw : Z) (w : world) (data : string)
    (im im' : image) :
  disk w !! image_filename u = None →
  web u = Some data → Image_open data = Some im →
  fit im mw = Ok im' → save_ok im' (image_filename u) = true →
  ∃ w1, download_image u mw w = (Ok (image_filename u), w1) ∧
    disk w1 !! image_filename u = Some im' ∧
    if mw <? width im then
      width im' = mw ∧
      (∃ ratio q, PyFloat.truediv (width im) mw = Ok ratio ∧
                  PyFloat.int_div (height im) ratio = Ok q ∧
                  PyFloat.to_int q = Ok (height im')) ∧
      (width im = 800 → mw = 400 → 0 < height im < 2 ^ 53 →
       height im' = height im / 2)
    else im' = im.
Proof.
  intros Hd Hw Ho Hf Hs. eexists.
  split; [apply (download_image_miss u mw w data im im'); assumption|].
  split; [simpl; apply lookup_insert_eq|].
  unfold fit in Hf. destruct (mw <? width im); [|congruence].
  unfold resized, Image_resize in Hf. unfold mbind, result_bind, mret, result_ret in Hf.
  destruct (PyFloat.truediv (width im) mw) as [ratio|] eqn:Hr; [|discriminate].
  destruct (PyFloat.int_div (height im) ratio) as [q|] eqn:Hq; [|discriminate].
  destruct (PyFloat.to_int q) as [h'|] eqn:Hh; [|discriminate].
  simpl in Hf. destruct (resample im mw h') as [px|]; [|discriminate].
  injection Hf as <-. simpl.
  split; [reflexivity|]. split; [eauto|].
  intros Hw8 -> Hlt. pose proof (resized_800_400 (height im) Hlt) as Hres.
  unfold resized in Hres. unfold mbind, result_bind, mret, result_ret in Hres.
  rewrite Hw8 in Hr. rewrite Hr, Hq, Hh in Hres. congruence.
Qed.

End Images.

(** ** Database *)

Section Database.

Lemma next_fault_none w : faults w = [] → next_fault w = (Ok false, w).
Proof. unfold next_fault. intros ->. reflexivity. Qed.

(** The lookup with no storage failure pending: the row's html. *)
Lemma Database_get_found url w :
  head (faults w) ≠ Some true →
  Database_get url w =
    (Ok (rows w !! url), set_faults (drop 1) (set_selects (λ l, l ++ [url]) w)).
Proof.
  intros Hf. unfold Database_get, select_html, cursor_close, next_fault. run.
  unfold mbind, M_bind, mret, M_ret. run.
  destruct w as [r d f s fe o l wr]; simpl in *.
  destruct f as [|[] f]; simpl in *; [reflexivity | congruence | reflexivity].
Qed.

(** The lookup that hits a storage failure: logged, and nothing found. *)
Lemma Database_get_failed url w f :
  faults w = true :: f →
  Database_get url w =
    (Ok None, set_log (λ l, l ++ ["cannot get article: " +:+ url])
                (set_faults (λ _, f) (set_selects (λ l, l ++ [url]) w))).
Proof.
  intros Hf. unfold Database_get, select_html, cursor_close, next_fault. run.
  unfold mbind, M_bind, mret, M_ret. run.
  rewrite Hf. reflexivity.
Qed.

Lemma Database_set_new url html w :
  head (faults w) ≠ Some true → rows w !! url = None →
  Database_set url html w = (Ok tt, set_rows (insert url html) (set_faults (drop 1) w)).
Proof.
  intros Hf Hr. unfold Database_set, insert_row, cursor_close, next_fault. run.
  unfold mbind, M_bind, mret, M_ret. run.
  destruct w as [r d f s fe o l wr]; simpl in *.
  destruct f as [|[] f]; simpl in *; rewrite ?Hr; [reflexivity | congruence | reflexivity].
Qed.

Lemma Database_set_present url html w v :
  head (faults w) ≠ Some true → rows w !! url = Some v →
  Database_set url html w = (Raise IntegrityError, set_faults (drop 1) w).
Proof.
  intros Hf Hr. unfold Database_set, insert_row, cursor_close, next_fault. run.
  unfold mbind, M_bind, mret, M_ret. run.
  destruct w as [r d f s fe o l wr]; simpl in *.
  destruct f as [|[] f]; simpl in *; rewrite ?Hr; [reflexivity | congruence | reflexivity].
Qed.

(** C8. [Database.get] looks the url up as the exact key of the table;
    when the lookup hits a storage failure it logs the failure and returns
    [None]; in no case does it raise. *)
Theorem get_by_key_never_raises (url : string) (w : world) :
  ∃ w', rows w' = rows w ∧ selects w' = selects w ++ [url] ∧
    match faults w with
    | true :: _ =>
        Database_get url w = (Ok None, w') ∧
        log w' = log w ++ ["cannot get article: " +:+ url]
    | _ =>
        Database_get url w = (Ok (rows w !! url), w') ∧ log w' = log w
    end.
Proof.
  destruct (faults w) as [|[] f] eqn:Hf.
  - rewrite Database_get_found by (rewrite Hf; discriminate).
    eexists. split; [|split; [|split; [reflexivity|]]]; reflexivity.
  - rewrite (Database_get_failed url w f Hf).
    eexists. split; [|split; [|split; [reflexivity|]]]; reflexivity.
  - rewrite Database_get_found by (rewrite Hf; discriminate).
    eexists. split; [|split; [|split; [reflexivity|]]]; reflexivity.
Qed.

(** C5. With no storage failure around: a url never set is absent; after
    [set(url, html)], [get(url)] returns exactly [html]; a second [set] of
    the url raises and leaves the stored html as it was. *)
Theorem get_set_get (url html html' : string) (w : world) :
  faults w = [] → rows w !! url = None →
  ∃ w1 w2 w3 w4 w5,
    Database_get url w = (Ok None, w1) ∧
    Database_set url html w1 = (Ok tt, w2) ∧
    Database_get url w2 = (Ok (Some html), w3) ∧
    Database_set url html' w3 = (Raise IntegrityError, w4) ∧
    Database_get url w4 = (Ok (Some html), w5) ∧
    rows w5 = <[url := html]> (rows w).
Proof.
  intros Hf Hr. do 5 eexists.
  split; [rewrite Database_get_found by (rewrite Hf; discriminate); rewrite Hr; reflexivity|].
  split; [apply Database_set_new; simpl; rewrite ?Hf; [discriminate | exact Hr]|].
  split; [rewrite Database_get_found by (simpl; rewrite Hf; discriminate); simpl;
          rewrite lookup_insert_eq; reflexivity|].
  split; [eapply Database_set_present; simpl; rewrite ?Hf; [discriminate | apply lookup_insert_eq]|].
  split; [rewrite Database_get_found by (simpl; rewrite Hf; discriminate); simpl;
          rewrite lookup_insert_eq; reflexivity|].
  reflexivity.
Qed.

End Database.

(** ** Article *)

Section Articles.

Context `{Collaborators}.

Lemma Database_get_run url w :
  Database_get url w = (Ok (seen url w), after_get url w).
Proof.
  unfold seen, after_get, failing.
  destruct (faults w) as [|[] f] eqn:Hf.
  - apply Database_get_found. rewrite Hf. discriminate.
  - rewrite (Database_get_failed url w f Hf).
    destruct w; simpl in *. subst. reflexivity.
  - apply Database_get_found. rewrite Hf. discriminate.
Qed.

Lemma lift_ok {O A} (m : M world A) (o o' : O) w w' r :
  lift m (o, w) = (r, (o', w')) ↔ m w = (r, w') ∧ o' = o.
Proof.
  rewrite lift_run. destruct (m w) as [r0 w0]. simpl.
  split; [intros [= -> -> ->]; auto | intros [[= -> ->] ->]; auto].
Qed.

(** What [Article.download] does when the lookup comes back falsy and the
    page can be fetched. *)
Lemma Article_download_miss a w body :
  truthy (seen (Article.url a) w) = false → web (Article.url a) = Some body →
  Article_download (a, w) =
    match Database_set (Article.url a) body
            (set_fetched (λ l, l ++ [Article.url a]) (after_get (Article.url a) w)) with
    | (r, w') => (r, (Article.set_html (Some body) a, w'))
    end.
Proof.
  intros Hs Hw. unfold Article_download.
  unfold mbind at 1. unfold M_bind. unfold self, gets. cbn [fst snd].
  unfold mbind at 1. unfold M_bind. rewrite lift_run, Database_get_run. cbn [fst snd].
  unfold mbind at 1. unfold M_bind. unfold update, modify. cbn [fst snd].
  rewrite Hs.
  unfold mbind at 1. unfold M_bind. rewrite lift_run. unfold fetch.
  unfold mbind at 1. unfold M_bind. unfold modify. rewrite Hw.
  unfold mret, M_ret. cbn [fst snd].
  unfold mbind at 1. unfold M_bind. cbn [fst snd].
  rewrite lift_run. cbn [fst snd Article.set_html Article.url].
  destruct (Database_set _ _ _) as [r w']. destruct a; reflexivity.
Qed.

(** What [Article.download] does when the lookup comes back truthy. *)
Lemma Article_download_cached a w :
  truthy (seen (Article.url a) w) = true →
  Article_download (a, w) =
    (Ok tt, (Article.set_html (seen (Article.url a) w) a, after_get (Article.url a) w)).
Proof.
  intros Hs. unfold Article_download.
  unfold mbind at 1. unfold M_bind. unfold self, gets. cbn [fst snd].
  unfold mbind at 1. unfold M_bind. rewrite lift_run, Database_get_run. cbn [fst snd].
  unfold mbind at 1. unfold M_bind. unfold update, modify. cbn [fst snd].
  rewrite Hs. reflexivity.
Qed.

(** What [Article.download] does when the page cannot be fetched. *)
Lemma Article_download_unreachable a w :
  truthy (seen (Article.url a) w) = false → web (Article.url a) = None →
  Article_download (a, w) =
    (Raise RequestException,
     (Article.set_html (seen (Article.url a) w) a,
      set_fetched (λ l, l ++ [Article.url a]) (after_get (Article.url a) w))).
Proof.
  intros Hs Hw. unfold Article_download.
  unfold mbind at 1. unfold M_bind. unfold self, gets. cbn [fst snd].
  unfold mbind at 1. unfold M_bind. rewrite lift_run, Database_get_run. cbn [fst snd].
  unfold mbind at 1. unfold M_bind. unfold update, modify. cbn [fst snd].
  rewrite Hs.
  unfold mbind at 1. unfold M_bind. rewrite lift_run. unfold fetch.
  unfold mbind at 1. unfold M_bind. unfold modify. rewrite Hw.
  reflexivity.
Qed.

Lemma after_get_last url w :
  drop 1 (faults w) = [] → faults (after_get url w) = [].
Proof. unfold after_get. destruct (failing w); simpl; auto. Qed.

Lemma after_get_rows url w : rows (after_get url w) = rows w.
Proof. unfold after_get. destruct (failing w); reflexivity. Qed.

Lemma after_get_fetched url w : fetched (after_get url w) = fetched w.
Proof. unfold after_get. destruct (failing w); reflexivity. Qed.

Lemma truthy_nonempty body : body ≠ "" → truthy (Some body) = true.
Proof.
  intros Hb. unfold truthy. destruct (String.eqb body "") eqn:E; [|reflexivity].
  apply String.eqb_eq in E. contradiction.
Qed.

(** C9. [Article.download] takes every falsy answer of the cache for a
    miss.  When the table holds the empty string for the url, or the
    lookup hit a storage failure, the page is fetched again and the insert
    is tried; with a row for the url in the table the insert raises on the
    primary key and the table stays as it was.  On a genuine miss a
    non-empty page is stored, and stored once: the next download finds it
    and neither fetches nor writes. *)
Theorem falsy_cache_is_a_miss (a : Article.t) (w : world) (body : string) :
  truthy (seen (Article.url a) w) = false →
  drop 1 (faults w) = [] →
  web (Article.url a) = Some body → body ≠ "" →
  let r := Article_download (a, w) in
  Article.html r.2.1 = Some body ∧
  fetched r.2.2 = fetched w ++ [Article.url a] ∧
  match rows w !! Article.url a with
  | Some _ => r.1 = Raise IntegrityError ∧ rows r.2.2 = rows w
  | None =>
      r.1 = Ok tt ∧ rows r.2.2 = <[Article.url a := body]> (rows w) ∧
      let r' := Article_download r.2 in
      r'.1 = Ok tt ∧ rows r'.2.2 = rows r.2.2 ∧ fetched r'.2.2 = fetched r.2.2
  end.
Proof.
  intros Hs Hf Hw Hb. cbv zeta. rewrite (Article_download_miss a w body Hs Hw).
  set (w1 := set_fetched _ (after_get (Article.url a) w)).
  assert (Hf1 : faults w1 = []) by (apply (after_get_last (Article.url a) w Hf)).
  assert (Hr1 : rows w1 = rows w) by (apply after_get_rows).
  assert (Hfe1 : fetched w1 = fetched w ++ [Article.url a])
    by (unfold w1; simpl; rewrite after_get_fetched; reflexivity).
  destruct (rows w !! Article.url a) as [v|] eqn:Hrow.
  - rewrite (Database_set_present _ body w1 v); [|rewrite Hf1; discriminate|rewrite Hr1; exact Hrow].
    simpl. auto.
  - rewrite (Database_set_new _ body w1); [|rewrite Hf1; discriminate|rewrite Hr1; exact Hrow].
    cbn [fst snd]. split; [reflexivity|]. split; [exact Hfe1|].
    split; [reflexivity|].
    split; [unfold set_rows, set_faults; cbn [rows]; rewrite Hr1; reflexivity|].
    set (w2 := set_rows _ _).
    assert (Hseen : seen (Article.url a) w2 = Some body).
    { unfold seen, failing, w2, set_rows, set_faults. cbn [faults rows].
      rewrite Hf1. simpl. apply lookup_insert_eq. }
    rewrite Article_download_cached
      by (cbn [Article.url Article.set_html]; rewrite Hseen; apply truthy_nonempty, Hb).
    cbn [fst snd]. split; [reflexivity|].
    split; [apply after_get_rows | apply after_get_fetched].
Qed.

(** C3 (as the code has it). When the url is in the table at the moment
    the write is tried, [Database.set] raises the duplicate key; nothing
    catches it before [Section.build]: [Article.build] raises it too, the
    table and the article's content stay as they were, and the loop of
    [Section.build] logs the failure and goes on. *)
Theorem duplicate_key_fails_the_article (a : Article.t) (w : world) (v body : string) :
  rows w !! Article.url a = Some v →
  truthy (seen (Article.url a) w) = false →
  drop 1 (faults w) = [] →
  web (Article.url a) = Some body →
  ∃ a' w1 w2,
    w1 = set_fetched (λ l, l ++ [Article.url a]) (after_get (Article.url a) w) ∧
    Database_set (Article.url a) body w1 = (Raise IntegrityError, w2) ∧
    rows w2 = rows w ∧
    Article_build (a, w) = (Raise IntegrityError, (a', w2)) ∧
    Article.html a' = Some body ∧ Article.content a' = Article.content a ∧
    build_or_log (a, w) =
      (Ok tt, (a', set_log (λ l, l ++ ["cannot build article"]) w2)).
Proof.
  intros Hrow Hs Hf Hw.
  set (w1 := set_fetched (λ l, l ++ [Article.url a]) (after_get (Article.url a) w)).
  assert (Hf1 : faults w1 = []) by (apply (after_get_last (Article.url a) w Hf)).
  assert (Hr1 : rows w1 = rows w) by (apply after_get_rows).
  assert (Hset : Database_set (Article.url a) body w1
                 = (Raise IntegrityError, set_faults (drop 1) w1)).
  { apply (Database_set_present _ body w1 v); [rewrite Hf1; discriminate|].
    rewrite Hr1. exact Hrow. }
  assert (Hdl : Article_download (a, w)
                = (Raise IntegrityError, (Article.set_html (Some body) a, set_faults (drop 1) w1))).
  { rewrite (Article_download_miss a w body Hs Hw). fold w1. rewrite Hset. reflexivity. }
  assert (Hb : Article_build (a, w)
               = (Raise IntegrityError, (Article.set_html (Some body) a, set_faults (drop 1) w1))).
  { unfold Article_build. apply bind_stop. exact Hdl. }
  exists (Article.set_html (Some body) a), w1, (set_faults (drop 1) w1).
  split; [reflexivity|]. split; [exact Hset|]. split; [exact Hr1|].
  split; [exact Hb|]. split; [reflexivity|]. split; [reflexivity|].
  unfold build_or_log, try_except. rewrite Hb. reflexivity.
Qed.

Lemma self_ok {O A} (f : O → A) (s s' : O * world) x :
  self f s = (Ok x, s') ↔ x = f s.1 ∧ s' = s.
Proof.
  unfold self, gets. split; [intros [= <- <-]; auto | intros [-> ->]; auto].
Qed.

Lemma update_ok {O} (f : O → O) (s s' : O * world) x :
  update f s = (Ok x, s') ↔ s' = (f s.1, s.2).
Proof.
  unfold update, modify. destruct x.
  split; [intros [= <-]; auto | intros ->; auto].
Qed.

Lemma same_but_images_refl a : same_but_images a a.
Proof. repeat split. Qed.

Lemma same_but_images_trans a b c :
  same_but_images a b → same_but_images b c → same_but_images a c.
Proof. unfold same_but_images. intros (?&?&?&?) (?&?&?&?). repeat split; congruence. Qed.

(** One round of the image loop that returns. *)
Lemma space_out_ok rate ps x s ps' s' :
  space_out rate ps x s = (Ok ps', s') →
  ∃ pos, position x.1 rate = Ok pos ∧
         ps' = py_insert pos (block x.2) ps ∧
         same_but_images s.1 s'.1.
Proof.
  unfold space_out. intros Hrun.
  split_bind Hrun pos s1 Hpos. apply pure_ok in Hpos as [Hpos ->].
  split_bind Hrun fn s2 Hdl. destruct s as [a w], s2 as [a2 w2].
  apply lift_ok in Hdl as [Hdl ->].
  apply download_image_ok in Hdl as [-> _].
  split_bind Hrun u s3 Hup. apply update_ok in Hup as ->.
  unfold mret, M_ret in Hrun. injection Hrun as <- <-.
  exists pos. split; [exact Hpos|]. split; [reflexivity|].
  destruct a; repeat split.
Qed.

(** The image loop, when it returns, leaves what [interleave] computes. *)
Lemma image_loop_ok rate imgs : ∀ i ps s ps' s',
  fold_each (enumerate i imgs) (space_out rate) ps s = (Ok ps', s') →
  interleave rate i (map block imgs) ps = Ok ps' ∧ same_but_images s.1 s'.1.
Proof.
  induction imgs as [|img imgs IH]; intros i ps s ps' s' Hrun; simpl in Hrun.
  - unfold mret, M_ret in Hrun. injection Hrun as <- <-.
    split; [reflexivity | apply same_but_images_refl].
  - split_bind Hrun ps1 s1 Hstep.
    apply space_out_ok in Hstep as (pos & Hpos & -> & Hsame).
    apply IH in Hrun as [Hrest Hsame'].
    split; [|eapply same_but_images_trans; eassumption].
    simpl. simpl in Hpos. rewrite Hpos. exact Hrest.
Qed.

(** [Article.download] leaves url, title, images and content alone. *)
Lemma Article_download_fields a w :
  let r := Article_download (a, w) in
  Article.url r.2.1 = Article.url a ∧ Article.title r.2.1 = Article.title a ∧
  Article.images r.2.1 = Article.images a ∧ Article.content r.2.1 = Article.content a ∧
  selects r.2.2 = selects w ++ [Article.url a] ∧
  (r.1 = Ok tt → ∃ h, Article.html r.2.1 = Some h).
Proof.
  cbv zeta. destruct (truthy (seen (Article.url a) w)) eqn:Hs.
  - rewrite Article_download_cached by exact Hs. cbn [fst snd].
    repeat split; try (unfold after_get; destruct (failing w); reflexivity).
    intros _. destruct (seen (Article.url a) w) as [h|]; [eauto | discriminate].
  - destruct (web (Article.url a)) as [body|] eqn:Hw.
    + rewrite (Article_download_miss a w body Hs Hw).
      destruct (Database_set _ _ _) as [r w'] eqn:Hset. cbn [fst snd].
      repeat split; [|eauto].
      assert (selects w' = selects (set_fetched (λ l, l ++ [Article.url a])
                                      (after_get (Article.url a) w))) as ->.
      { revert Hset. unfold Database_set, insert_row, cursor_close, next_fault. run.
        unfold mbind, M_bind, mret, M_ret. run.
        destruct (faults _) as [|[] f]; simpl;
          try destruct (rows _ !! _); intros [= <- <-]; reflexivity. }
      unfold after_get; destruct (failing w); reflexivity.
    + rewrite (Article_download_unreachable a w Hs Hw). cbn [fst snd].
      repeat split; try (unfold after_get; destruct (failing w); reflexivity).
      discriminate.
Qed.

(** What a build that returns has done. *)
Lemma Article_build_ok a w a' w' :
  Article_build (a, w) = (Ok tt, (a', w')) →
  ∃ h parsed rate ps,
    Article.html a' = Some h ∧ extract (Article.url a) h = Ok parsed ∧
    let images := filter (λ i, i ≠ newspaper.top_image parsed) (newspaper.images parsed) in
    let paragraphs := py_split newline (newspaper.text parsed) in
    let header := "<h1>" +:+ Article.title a +:+ "</h1>" in
    PyFloat.truediv (Z.of_nat (length paragraphs)) (Z.of_nat (length images) + 1) = Ok rate ∧
    interleave rate 1 (map block images) paragraphs = Ok ps ∧
    Article.content a' =
      (if newspaper.has_top_image parsed
       then header +:+ block (newspaper.top_image parsed) else header)
      +:+ py_join "<br>" ps.
Proof.
  unfold Article_build. intros Hrun.
  split_bind Hrun u s1 Hdl. destruct s1 as [a1 w1].
  pose proof (Article_download_fields a w) as Hfields. cbv zeta in Hfields.
  rewrite Hdl in Hfields. cbn [fst snd] in Hfields.
  destruct Hfields as (Hurl & Htitle & _ & _ & _ & _).
  split_bind Hrun url s2 Hu. apply self_ok in Hu as [-> ->].
  split_bind Hrun html s2 Hh. apply self_ok in Hh as [-> ->].
  split_bind Hrun title s2 Ht. apply self_ok in Ht as [-> ->].
  cbn [fst snd] in Hrun.
  split_bind Hrun parsed s2 Hp. apply pure_ok in Hp as [Hp ->].
  destruct (Article.html a1) as [h|] eqn:Hhtml; [|discriminate].
  split_bind Hrun content s2 Htop. destruct s2 as [a2 w2].
  assert (Hsame2 : same_but_images a1 a2 ∧
            content = if newspaper.has_top_image parsed
                      then ("<h1>" +:+ Article.title a1 +:+ "</h1>")
                             +:+ block (newspaper.top_image parsed)
                      else "<h1>" +:+ Article.title a1 +:+ "</h1>").
  { destruct (newspaper.has_top_image parsed).
    - split_bind Htop fn s3 Hdi. destruct s3 as [a3 w3].
      apply lift_ok in Hdi as [Hdi ->]. apply download_image_ok in Hdi as [-> _].
      split_bind Htop u' s4 Hup. apply update_ok in Hup as ->.
      unfold mret, M_ret in Htop. injection Htop as <- <- <-.
      split; [destruct a1; repeat split | reflexivity].
    - unfold mret, M_ret in Htop. injection Htop as <- <- <-.
      split; [apply same_but_images_refl | reflexivity]. }
  destruct Hsame2 as [Hsame2 ->].
  split_bind Hrun rate s3 Hrate. apply pure_ok in Hrate as [Hrate ->].
  split_bind Hrun ps s3 Hloop. destruct s3 as [a3 w3].
  apply image_loop_ok in Hloop as [Hloop Hsame3]. cbn [fst] in Hsame3.
  apply update_ok in Hrun. injection Hrun as -> ->.
  pose proof (same_but_images_trans _ _ _ Hsame2 Hsame3) as (_ & _ & Hh3 & _).
  exists h, parsed, rate, ps. cbv zeta.
  rewrite <- Hurl, <- Htitle.
  split; [cbn [Article.html Article.set_content]; congruence|].
  split; [exact Hp|]. split; [exact Hrate|]. split; [exact Hloop|].
  reflexivity.
Qed.

(** A built article has content. *)
Lemma Article_build_content a w a' w' :
  Article_build (a, w) = (Ok tt, (a', w')) → Article.content a' ≠ "".
Proof.
  intros Hrun. apply Article_build_ok in Hrun as (h & parsed & rate & ps & _ & _ & Hc).
  cbv zeta in Hc. destruct Hc as (_ & _ & ->).
  destruct (newspaper.has_top_image parsed); discriminate.
Qed.

(** C1 (as the code has it). The builder computes [rate = P / (N + 1)]
    from the P paragraphs and the N images that are not the top image, and
    takes the images in their order: image i goes to
    [pos = round(i * rate) + i] of the list as the images before it left
    it, by Python's [insert]: at index [pos], or at the end of the list
    when [pos] is past the end.  For P = 6 and N = 2 the positions are 3
    and 6 and both are inside the list. *)
Theorem images_spaced_out (a a' : Article.t) (w w' : world) :
  Article_build (a, w) = (Ok tt, (a', w')) →
  (∃ h parsed rate ps,
     Article.html a' = Some h ∧ extract (Article.url a) h = Ok parsed ∧
     let images := filter (λ i, i ≠ newspaper.top_image parsed) (newspaper.images parsed) in
     let paragraphs := py_split newline (newspaper.text parsed) in
     let header := "<h1>" +:+ Article.title a +:+ "</h1>" in
     PyFloat.truediv (Z.of_nat (length paragraphs)) (Z.of_nat (length images) + 1) = Ok rate ∧
     PyFloat.is_nonneg rate = true ∧
     interleave rate 1 (map block images) paragraphs = Ok ps ∧
     Article.content a' =
       (if newspaper.has_top_image parsed
        then header +:+ block (newspaper.top_image parsed) else header)
       +:+ py_join "<br>" ps) ∧
  (∀ rate i b bs (ps : list string) pos,
     0 <= i → PyFloat.is_nonneg rate = true → position i rate = Ok pos →
     let p := Z.to_nat (Z.min pos (Z.of_nat (length ps))) in
     interleave rate i (b :: bs) ps = interleave rate (i + 1) bs (py_insert pos b ps) ∧
     i <= pos ∧
     py_insert pos b ps !! p = Some b ∧
     take p (py_insert pos b ps) = take p ps ∧
     drop (S p) (py_insert pos b ps) = drop p ps) ∧
  (∀ p1 p2 p3 p4 p5 p6 b1 b2 : string, ∃ rate,
     PyFloat.truediv 6 (2 + 1) = Ok rate ∧
     position 1 rate = Ok 3 ∧ position 2 rate = Ok 6 ∧
     interleave rate 1 [b1; b2] [p1; p2; p3; p4; p5; p6]
     = Ok [p1; p2; p3; b1; p4; p5; b2; p6]).
Proof.
  intros Hrun. split; [|split].
  - apply Article_build_ok in Hrun as (h & parsed & rate & ps & Hh & Hp & Hrest).
    cbv zeta in Hrest. destruct Hrest as (Hrate & Hloop & Hc).
    exists h, parsed, rate, ps. cbv zeta. repeat (split; [assumption|]).
    split; [|split; assumption].
    apply truediv_nonneg in Hrate; [exact Hrate | lia | lia].
  - intros rate i b bs ps pos Hi Hr Hpos p.
    pose proof (position_from_index i rate pos Hi Hr Hpos) as Hle.
    destruct (py_insert_at pos b ps ltac:(lia)) as (Hat & Htake & Hdrop & _).
    split; [simpl; rewrite Hpos; reflexivity|]. auto.
  - intros. exists PyFloat.two.
    split; [vm_compute; reflexivity|].
    split; [vm_compute; reflexivity|].
    split; [vm_compute; reflexivity|].
    cbn [interleave].
    replace (position 1 PyFloat.two) with (Ok 3 : result Z) by (vm_compute; reflexivity).
    replace (position (1 + 1) PyFloat.two) with (Ok 6 : result Z) by (vm_compute; reflexivity).
    reflexivity.
Qed.

End Articles.

(** ** Section *)

Section Sections.

Context `{Collaborators}.

Lemma bind_selects {O A B} (m : M (O * world) A) (k : A → M (O * world) B) :
  (∀ s, selects (m s).2.2 = selects s.2) →
  (∀ a s, selects (k a s).2.2 = selects s.2) →
  ∀ s, selects ((m ≫= k) s).2.2 = selects s.2.
Proof.
  intros Hm Hk s. unfold mbind, M_bind. specialize (Hm s).
  destruct (m s) as [[a|e] s1]; simpl in *; [rewrite Hk|]; exact Hm.
Qed.

Lemma download_image_selects u mw w :
  selects (download_image u mw w).2 = selects w.
Proof.
  unfold download_image, fetch, Image_save. run.
  unfold mbind, M_bind, mret, M_ret. run.
  destruct (disk w !! image_filename u); [reflexivity|].
  destruct (web u) as [data|]; simpl; [|reflexivity].
  destruct (Image_open data) as [im|]; simpl; [|reflexivity].
  destruct (fit im mw) as [im'|]; simpl; [|reflexivity].
  destruct (save_ok im' (image_filename u)); reflexivity.
Qed.

Lemma lift_selects {O A} (m : M world A) :
  (∀ w, selects (m w).2 = selects w) →
  ∀ s : O * world, selects (lift m s).2.2 = selects s.2.
Proof. intros Hm [o w]. rewrite lift_run. simpl. apply Hm. Qed.

Lemma space_out_selects rate ps x :
  ∀ s, selects (space_out rate ps x s).2.2 = selects s.2.
Proof.
  unfold space_out.
  apply bind_selects; [reflexivity | intros pos].
  apply bind_selects; [apply lift_selects, download_image_selects | intros fn].
  apply bind_selects; [reflexivity | intros u]. reflexivity.
Qed.

Lemma fold_each_selects {O A B} (body : B → A → M (O * world) B) (l : list A) :
  (∀ acc x s, selects (body acc x s).2.2 = selects s.2) →
  ∀ acc s, selects (fold_each l body acc s).2.2 = selects s.2.
Proof.
  intros Hbody. induction l as [|x l IH]; intros acc; simpl; [reflexivity|].
  apply bind_selects; [apply Hbody | exact IH].
Qed.

(** A build attempt looks its url up once, first thing, however it ends. *)
Lemma Article_build_selects a w :
  selects (Article_build (a, w)).2.2 = selects w ++ [Article.url a].
Proof.
  unfold Article_build. unfold mbind at 1. unfold M_bind.
  pose proof (Article_download_fields a w) as Hf. cbv zeta in Hf.
  destruct Hf as (_ & _ & _ & _ & Hsel & _).
  destruct (Article_download (a, w)) as [[u|e] s1]; [|exact Hsel].
  cbn [fst snd] in Hsel. rewrite <- Hsel. revert s1 Hsel. intros s1 _. revert s1.
  apply bind_selects; [reflexivity | intros url].
  apply bind_selects; [reflexivity | intros html].
  apply bind_selects; [reflexivity | intros title].
  apply bind_selects; [reflexivity | intros parsed].
  apply bind_selects.
  { destruct (newspaper.has_top_image parsed); [|reflexivity].
    apply bind_selects; [apply lift_selects, download_image_selects | intros fn].
    apply bind_selects; [reflexivity | intros u']. reflexivity. }
  intros content.
  apply bind_selects; [reflexivity | intros rate].
  apply bind_selects; [|intros ps; reflexivity].
  apply fold_each_selects. intros acc x. apply space_out_selects.
Qed.

(** The body of the loop of [Section.build] never raises; it leaves the
    article as the build attempt left it. *)
Lemma build_or_log_run a w :
  build_or_log (a, w) =
    match Article_build (a, w) with
    | (Ok _, s') => (Ok tt, s')
    | (Raise _, (a', w')) => (Ok tt, (a', set_log (λ l, l ++ ["cannot build article"]) w'))
    end.
Proof.
  unfold build_or_log, try_except.
  destruct (Article_build (a, w)) as [[[]|e] [a' w']]; reflexivity.
Qed.

Lemma build_or_log_total s : (build_or_log s).1 = Ok tt.
Proof.
  destruct s as [a w]. rewrite build_or_log_run.
  destruct (Article_build (a, w)) as [[[]|e] [a' w']]; reflexivity.
Qed.

Lemma build_or_log_selects a w :
  selects (build_or_log (a, w)).2.2 = selects w ++ [Article.url a].
Proof.
  rewrite build_or_log_run. pose proof (Article_build_selects a w) as Hs.
  destruct (Article_build (a, w)) as [[[]|e] [a' w']]; exact Hs.
Qed.

(** The loop over the articles: it returns, keeps the number of articles,
    and has looked up every url once, in the order of the list. *)
Lemma articles_loop l : ∀ w,
  let r := for_each_object l build_or_log w in
  r.1 = Ok tt ∧ length r.2.1 = length l ∧
  selects r.2.2 = selects w ++ map Article.url l.
Proof.
  induction l as [|a l IH]; intros w; cbv zeta; simpl.
  - rewrite app_nil_r. auto.
  - pose proof (build_or_log_total (a, w)) as Htot.
    pose proof (build_or_log_selects a w) as Hsel.
    destruct (build_or_log (a, w)) as [[[]|e] [a' w']]; [|discriminate].
    specialize (IH w'). cbv zeta in IH.
    destruct (for_each_object l build_or_log w') as [r [l' w'']].
    cbn [fst snd] in *. destruct IH as (Hr & Hl & Hs).
    simpl. rewrite Hr, Hl, Hs, Hsel, <- app_assoc. auto.
Qed.

(** C7. [Section.build] tries every article once, in the order of the
    list, logs what an article's build raises and goes on: it never fails
    as a whole and keeps every article.  With three articles of which the
    second cannot be fetched, the section still holds three articles, the
    second with empty content, the first and the third as their builds
    left them, with content. *)
Theorem section_build_goes_on (s : Section.t) (w : world) :
  let r := Section_build (s, w) in
  r.1 = Ok tt ∧
  Section.title r.2.1 = Section.title s ∧
  length (Section.articles r.2.1) = length (Section.articles s) ∧
  selects r.2.2 = selects w ++ map Article.url (Section.articles s) ∧
  ∀ u1 t1 u2 t2 u3 t3,
    Section.articles s = [Article.new u1 t1; Article.new u2 t2; Article.new u3 t3] →
    let r1 := Article_build (Article.new u1 t1, w) in
    r1.1 = Ok tt →
    web u2 = None → truthy (seen u2 r1.2.2) = false →
    let r2 := Article_build (Article.new u2 t2, r1.2.2) in
    let w2 := set_log (λ l, l ++ ["cannot build article"]) r2.2.2 in
    let r3 := Article_build (Article.new u3 t3, w2) in
    r3.1 = Ok tt →
    r2.1 = Raise RequestException ∧
    Section.articles r.2.1 = [r1.2.1; r2.2.1; r3.2.1] ∧
    Article.content r1.2.1 ≠ "" ∧
    Article.content r2.2.1 = "" ∧
    Article.content r3.2.1 ≠ "" ∧
    r.2.2 = r3.2.2.
Proof.
  cbv zeta. unfold Section_build. cbn [fst snd].
  pose proof (articles_loop (Section.articles s) w) as Hloop. cbv zeta in Hloop.
  destruct Hloop as (Hok & Hlen & Hsel).
  split; [|split; [|split; [|split]]].
  - destruct (for_each_object _ _ _) as [r [l w']]. exact Hok.
  - destruct (for_each_object _ _ _) as [r [l w']]. reflexivity.
  - destruct (for_each_object _ _ _) as [r [l w']]. exact Hlen.
  - destruct (for_each_object _ _ _) as [r [l w']]. exact Hsel.
  - clear Hok Hlen Hsel. intros u1 t1 u2 t2 u3 t3 -> H1 Hweb Hseen H3.
    assert (H2 : Article_build (Article.new u2 t2, (Article_build (Article.new u1 t1, w)).2.2)
                 = (Raise RequestException,
                    (Article.set_html (seen u2 (Article_build (Article.new u1 t1, w)).2.2)
                       (Article.new u2 t2),
                     set_fetched (λ l, l ++ [u2])
                       (after_get u2 (Article_build (Article.new u1 t1, w)).2.2)))).
    { unfold Article_build at 1. apply bind_stop.
      apply (Article_download_unreachable (Article.new u2 t2)); assumption. }
    cbn [for_each_object]. rewrite build_or_log_run.
    destruct (Article_build (Article.new u1 t1, w)) as [[[]|e1] [b1 w1]] eqn:Hb1;
      [|discriminate].
    cbn [fst snd] in *. rewrite build_or_log_run, H2.
    rewrite H2 in H3. cbn [fst snd] in *.
    rewrite build_or_log_run.
    destruct (Article_build (Article.new u3 t3, _)) as [[[]|e3] [b3 w3]] eqn:Hb3;
      [|discriminate].
    cbn [fst snd Section.articles set_articles].
    split; [reflexivity|]. split; [reflexivity|].
    split; [eapply Article_build_content; exact Hb1|].
    split; [reflexivity|].
    split; [eapply Article_build_content; exact Hb3 | reflexivity].
Qed.

End Sections.

(** ** Economist: the book *)

Section Books.

Context `{Collaborators}.

Lemma add_article_skip st a w :
  Article.content a = "" →
  add_article st a w =
    (Ok st, set_log (λ l, l ++ [Article.url a +:+ " could not be downloaded. Skipping."]) w).
Proof. intros Ha. unfold add_article. rewrite Ha. reflexivity. Qed.

(** Articles without content add nothing to the section's items; each is
    logged. *)
Lemma skip_failed_articles (l : list Article.t) : ∀ st w,
  Forall (λ a, Article.content a = "") l →
  ∃ w', fold_each l add_article st w = (Ok st, w') ∧
        written w' = written w ∧ disk w' = disk w.
Proof.
  induction l as [|a l IH]; intros st w Hall; cbn [fold_each].
  - exists w. auto.
  - inversion Hall as [|? ? Ha Hl]; subst.
    rewrite (bind_step _ _ _ _ _ (add_article_skip st a w Ha)).
    destruct (IH st (set_log (λ l0, l0 ++ [Article.url a +:+ " could not be downloaded. Skipping."]) w) Hl)
      as (w' & Hrun & Hw & Hd).
    exists w'. rewrite Hrun. auto.
Qed.

Lemma read_image_found filename w im :
  disk w !! filename = Some im → read_image filename w = (Ok im, w).
Proof.
  intros Him. unfold read_image. unfold mbind, M_bind, gets. rewrite Him. reflexivity.
Qed.

(** The images of an article that are all on disk are all read. *)
Lemma read_images (l : list string) : ∀ book w,
  Forall (λ f, is_Some (disk w !! f)) l →
  ∃ book', fold_each l
             (λ book filename,
                img ← read_image filename;
                mret (add_item (EpubImage filename img) book)) book w
           = (Ok book', w).
Proof.
  induction l as [|f l IH]; intros book w Hall; cbn [fold_each].
  - eexists. reflexivity.
  - inversion Hall as [|? ? [im Him] Hl]; subst.
    erewrite bind_step; [apply IH; exact Hl|].
    erewrite bind_step; [reflexivity|]. apply read_image_found. exact Him.
Qed.

(** C2 (what the code does instead). A section none of whose articles has
    content leaves its item list empty, and [items[0]] then raises
    [IndexError]: no entry is added, and no book is written either. *)
Theorem empty_section_breaks_the_book (e : Economist.t) (w : world)
    (s : Section.t) (rest : list Section.t) :
  truthy (Economist.cover_img e) = false →
  Economist.sections e = s :: rest →
  Forall (λ a, Article.content a = "") (Section.articles s) →
  (∀ st w0, (add_section st s w0).1 = Raise IndexError) ∧
  ∃ w', assemble e w = (Raise IndexError, w') ∧ written w' = written w.
Proof.
  intros Hcover Hsections Hall.
  assert (Hsec : ∀ st w0, ∃ w', add_section st s w0 = (Raise IndexError, w') ∧
                                written w' = written w0).
  { intros st w0. unfold add_section.
    destruct (skip_failed_articles (Section.articles s) (st.1.1, []) w0 Hall)
      as (w' & Hrun & Hw & _).
    exists w'. split; [|exact Hw].
    unfold mbind at 1. unfold M_bind. rewrite Hrun. reflexivity. }
  split.
  - intros st w0. destruct (Hsec st w0) as (w' & -> & _). reflexivity.
  - unfold assemble. rewrite Hcover, Hsections.
    unfold mbind at 1. unfold M_bind. unfold mret at 1. unfold M_ret.
    cbn [fold_each fst snd].
    unfold mbind at 1. unfold M_bind.
    unfold mbind at 1. unfold M_bind.
    match goal with
    | |- context [add_section ?st s w] => destruct (Hsec st w) as (w' & -> & Hw)
    end.
    exists w'. auto.
Qed.

(** C10. The content document of an article with content is named by the
    article's title followed by [.xhtml]; so two such articles with the
    same title get the same file name. *)
Theorem content_file_name (article : Article.t)
    (st : EpubBook * list epub_item) (w : world) :
  Article.content article ≠ "" →
  Forall (λ f, is_Some (disk w !! f)) (Article.images article) →
  ∃ book item,
    add_article st article w = (Ok (book, st.2 ++ [item]), w) ∧
    item = EpubHtml (Article.title article) (Article.title article +:+ ".xhtml")
             Economist.language (Article.content article) ∧
    item_file_name item = Article.title article +:+ ".xhtml" ∧
    ∀ article' st' book' item',
      Article.content article' ≠ "" →
      Article.title article' = Article.title article →
      add_article st' article' w = (Ok (book', st'.2 ++ [item']), w) →
      item_file_name item' = item_file_name item.
Proof.
  intros Hc Himgs.
  assert (Hrun : ∀ (a : Article.t) (st0 : EpubBook * list epub_item) r w',
            Article.content a ≠ "" → add_article st0 a w = (Ok r, w') →
            r.2 = st0.2 ++ [EpubHtml (Article.title a) (Article.title a +:+ ".xhtml")
                              Economist.language (Article.content a)]).
  { intros a st0 r w' Ha. unfold add_article.
    destruct (String.eqb (Article.content a) "") eqn:E;
      [apply String.eqb_eq in E; contradiction|].
    intros Hrun. split_bind Hrun book s1 Hread.
    unfold mret, M_ret in Hrun. injection Hrun as <- <-. reflexivity. }
  destruct (read_images (Article.images article) st.1 w Himgs) as (book & Hread).
  exists book, (EpubHtml (Article.title article) (Article.title article +:+ ".xhtml")
                  Economist.language (Article.content article)).
  split; [|split; [reflexivity|split; [reflexivity|]]].
  - unfold add_article.
    destruct (String.eqb (Article.content article) "") eqn:E;
      [apply String.eqb_eq in E; contradiction|].
    erewrite bind_step; [reflexivity | exact Hread].
  - intros article' st' book' item' Hc' Htitle Hrun'.
    apply Hrun in Hrun'; [|exact Hc']. cbn [snd] in Hrun'.
    apply app_inj_tail in Hrun' as [_ ->]. simpl. rewrite Htitle. reflexivity.
Qed.

End Books.

(** * The program at work *)

(** C1, as first stated, fails: one paragraph and two images give the rate
    1/3; the second image's position is [round(2/3) + 2 = 3], the list then
    has two entries, and the block lands at index 2: index 3 holds
    nothing. *)
Lemma second_image_past_the_end :
  ∃ rate ps1 ps2 s1 s2,
    PyFloat.truediv 1 (2 + 1) = Ok rate ∧
    space_out (H:=Demo.env) rate (py_split newline "p1") (1, "http://e.com/a.jpg")
      (Demo.one, Demo.empty) = (Ok ps1, s1) ∧
    position 2 rate = Ok 3 ∧
    space_out (H:=Demo.env) rate ps1 (2, "http://e.com/b.jpg") s1 = (Ok ps2, s2) ∧
    length ps1 = 2%nat ∧
    ps2 !! Z.to_nat 3 ≠ Some (block (H:=Demo.env) "http://e.com/b.jpg").
Proof.
  eexists _, _, _, _, _.
  split; [vm_compute; reflexivity|].
  split; [vm_compute; reflexivity|].
  split; [vm_compute; reflexivity|].
  split; [vm_compute; reflexivity|].
  split; [reflexivity|]. vm_compute. discriminate.
Qed.

(** The builder on six paragraphs and two images. *)
Lemma images_spaced_out_six :
  let r := Article_build (H:=Demo.env) (Demo.six, Demo.empty) in
  r.1 = Ok tt ∧
  Article.content r.2.1 =
    "<h1>Six</h1>" +:+
    py_join "<br>" ["p1"; "p2"; "p3"; block (H:=Demo.env) "http://e.com/a.jpg";
                    "p4"; "p5"; block (H:=Demo.env) "http://e.com/b.jpg"; "p6"].
Proof.
  cbv zeta.
  assert (Hrun : Article_build (H:=Demo.env) (Demo.six, Demo.empty)
                 = (Ok tt, ((Article_build (H:=Demo.env) (Demo.six, Demo.empty)).2.1,
                            (Article_build (H:=Demo.env) (Demo.six, Demo.empty)).2.2)))
    by (vm_compute; reflexivity).
  split; [rewrite Hrun; reflexivity|].
  destruct (images_spaced_out (H:=Demo.env) _ _ _ _ Hrun)
    as [(h & parsed & rate & ps & Hh & Hp & Hrest) _].
  vm_compute in Hh. injection Hh as <-.
  vm_compute in Hp. injection Hp as <-.
  cbv zeta in Hrest. destruct Hrest as (Hrate & _ & Hloop & Hc).
  vm_compute in Hrate. injection Hrate as <-.
  vm_compute in Hloop. injection Hloop as <-.
  rewrite Hc. vm_compute. reflexivity.
Defined.

(** An issue whose only section holds two articles that cannot be fetched:
    both builds fail, and the assembly raises instead of writing a book
    without the section. *)
Lemma two_failed_articles_no_book :
  let r := build_sections (H:=Demo.env) (Demo.issue, Demo.empty) in
  r.1 = Ok tt ∧
  ∃ w', assemble (H:=Demo.env) r.2.1 r.2.2 = (Raise IndexError, w') ∧ written w' = [].
Proof.
  cbv zeta. split; [vm_compute; reflexivity|].
  refine (proj2 (empty_section_breaks_the_book (H:=Demo.env)
     (build_sections (H:=Demo.env) (Demo.issue, Demo.empty)).2.1
     (build_sections (H:=Demo.env) (Demo.issue, Demo.empty)).2.2
     (Section.Make "Briefing"
        [Article.Make "http://e.com/gone" "Gone" None [] "";
         Article.Make "http://e.com/lost" "Lost" None [] ""]) [] _ _ _)).
  - reflexivity.
  - vm_compute. reflexivity.
  - repeat constructor.
Defined.

(** C3, as first stated, fails: with the empty string cached for the url,
    the write raises out of [Database.set], out of [Article.build] too, and
    the article is left without content. *)
Lemma duplicate_key_not_caught :
  let url := "http://e.com/plain" in
  let page := "<article>plain</article>" in
  rows Demo.stale !! url = Some "" ∧
  web (Collaborators:=Demo.env) url = Some page ∧
  Database_set url page Demo.stale = (Raise IntegrityError, Demo.stale) ∧
  ∃ a' w',
    Article_build (H:=Demo.env) (Demo.plain, Demo.stale) = (Raise IntegrityError, (a', w')) ∧
    Article.html a' = Some page ∧ Article.content a' = "".
Proof.
  cbv zeta. split; [vm_compute; reflexivity|]. split; [reflexivity|].
  split; [vm_compute; reflexivity|].
  eexists _, _. split; [vm_compute; reflexivity|]. split; reflexivity.
Qed.

(** The same article under [Section.build]'s loop: logged, and on. *)
Lemma duplicate_key_fails_plain :
  ∃ a' w',
    build_or_log (H:=Demo.env) (Demo.plain, Demo.stale) = (Ok tt, (a', w')) ∧
    Article.content a' = "" ∧ last (log w') = Some "cannot build article" ∧
    rows w' = rows Demo.stale.
Proof.
  destruct (duplicate_key_fails_the_article (H:=Demo.env) Demo.plain Demo.stale ""
              "<article>plain</article>")
    as (a' & w1 & w2 & _ & _ & Hrows & _ & _ & Hc & Hlog).
  - vm_compute. reflexivity.
  - reflexivity.
  - reflexivity.
  - reflexivity.
  - exists a', (set_log (λ l, l ++ ["cannot build article"]) w2).
    split; [exact Hlog|]. split; [exact Hc|].
    split; [|exact Hrows].
    unfold set_log. cbn [log]. apply last_snoc.
Defined.

(** C4, as first stated, fails: an image 800 by 3 at [max_width] 400 is
    stored 1 high, [int(1.5)], where [round(3 / (800 / 400))] is 2. *)
Lemma height_is_cut_not_rounded :
  let u := "http://e.com/a.jpg" in
  ∃ w1 stored ratio q,
    Image_open (Collaborators:=Demo.env) "jpeg 800x3" = Some (Image 800 3 "a") ∧
    download_image (H:=Demo.env) u 400 Demo.empty = (Ok (image_filename (H:=Demo.env) u), w1) ∧
    disk w1 !! image_filename (H:=Demo.env) u = Some stored ∧
    PyFloat.truediv 800 400 = Ok ratio ∧ PyFloat.int_div 3 ratio = Ok q ∧
    PyFloat.round q = Ok 2 ∧
    width stored = 400 ∧ height stored = 1 ∧ height stored ≠ 2.
Proof.
  cbv zeta. eexists _, _, _, _.
  split; [reflexivity|].
  split; [vm_compute; reflexivity|].
  split; [vm_compute; reflexivity|].
  split; [vm_compute; reflexivity|].
  split; [vm_compute; reflexivity|].
  split; [vm_compute; reflexivity|].
  split; [reflexivity|]. split; [reflexivity|]. discriminate.
Qed.

(** The same image under the theorem: 400 wide, [3 // 2] high. *)
Lemma download_image_resizes_a :
  let u := "http://e.com/a.jpg" in
  ∃ w1 stored,
    download_image (H:=Demo.env) u 400 Demo.empty = (Ok (image_filename (H:=Demo.env) u), w1) ∧
    disk w1 !! image_filename (H:=Demo.env) u = Some stored ∧
    width stored = 400 ∧ height stored = 3 / 2.
Proof.
  cbv zeta.
  destruct (download_image_resizes (H:=Demo.env) "http://e.com/a.jpg" 400 Demo.empty
              "jpeg 800x3" (Image 800 3 "a") (Image 400 1 "a"))
    as (w1 & Hrun & Hdisk & Hw & _ & Hhalf).
  - reflexivity.
  - reflexivity.
  - reflexivity.
  - vm_compute. reflexivity.
  - reflexivity.
  - exists w1, (Image 400 1 "a"). split; [exact Hrun|]. split; [exact Hdisk|].
    split; [exact Hw|]. apply Hhalf; [reflexivity | reflexivity | simpl; lia].
Defined.

(** The cache on a fresh url. *)
Lemma get_set_get_fresh :
  let url := "http://e.com/plain" in
  faults Demo.empty = [] ∧ rows Demo.empty !! url = None ∧
  ∃ w1 w2 w3 w4 w5,
    Database_get url Demo.empty = (Ok None, w1) ∧
    Database_set url "<p>" w1 = (Ok tt, w2) ∧
    Database_get url w2 = (Ok (Some "<p>"), w3) ∧
    Database_set url "<q>" w3 = (Raise IntegrityError, w4) ∧
    Database_get url w4 = (Ok (Some "<p>"), w5) ∧
    rows w5 = <[url := "<p>"]> (rows Demo.empty).
Proof.
  cbv zeta. split; [reflexivity|]. split; [reflexivity|].
  apply (get_set_get "http://e.com/plain" "<p>" "<q>" Demo.empty); reflexivity.
Defined.

(** Two downloads of one image: one fetch, one decode, one path. *)
Lemma download_image_twice :
  let u := "http://e.com/a.jpg" in
  let r := download_image (H:=Demo.env) u 400 Demo.empty in
  r.1 = Ok (image_filename (H:=Demo.env) u) ∧
  download_image (H:=Demo.env) u 400 r.2 = (Ok (image_filename (H:=Demo.env) u), r.2) ∧
  fetched r.2 = [u] ∧ opened r.2 = [u].
Proof.
  cbv zeta.
  assert (Hrun : download_image (H:=Demo.env) "http://e.com/a.jpg" 400 Demo.empty
                 = (Ok (image_filename (H:=Demo.env) "http://e.com/a.jpg"),
                    (download_image (H:=Demo.env) "http://e.com/a.jpg" 400 Demo.empty).2))
    by (vm_compute; reflexivity).
  destruct (download_image_idempotent (H:=Demo.env) _ _ _ _ _ Hrun) as (_ & Hagain & Honce & _).
  split; [rewrite Hrun; reflexivity|]. split; [exact Hagain|].
  assert (Hnone : disk Demo.empty !! image_filename (H:=Demo.env) "http://e.com/a.jpg" = None)
    by reflexivity.
  rewrite Hnone in Honce. exact Honce.
Defined.

(** A section of three articles of which the second cannot be fetched. *)
Lemma section_build_leaders :
  let r := Section_build (H:=Demo.env) (Demo.leaders, Demo.empty) in
  r.1 = Ok tt ∧
  selects r.2.2 = ["http://e.com/plain"; "http://e.com/gone"; "http://e.com/six"] ∧
  ∃ b1 b2 b3,
    Section.articles r.2.1 = [b1; b2; b3] ∧
    Article.content b1 ≠ "" ∧ Article.content b2 = "" ∧ Article.content b3 ≠ "".
Proof.
  cbv zeta.
  destruct (section_build_goes_on (H:=Demo.env) Demo.leaders Demo.empty)
    as (Hok & _ & _ & Hsel & Hthree).
  split; [exact Hok|]. split; [exact Hsel|].
  destruct (Hthree "http://e.com/plain" "Plain" "http://e.com/gone" "Gone"
              "http://e.com/six" "Six")
    as (_ & Harts & Hc1 & Hc2 & Hc3 & _).
  - reflexivity.
  - vm_compute. reflexivity.
  - reflexivity.
  - vm_compute. reflexivity.
  - vm_compute. reflexivity.
  - eexists _, _, _. split; [exact Harts|]. auto.
Defined.

(** A stale empty entry makes the insert fail; a genuine miss stores the
    page. *)
Lemma falsy_cache_plain :
  let page := "<article>plain</article>" in
  let stale := Article_download (H:=Demo.env) (Demo.plain, Demo.stale) in
  let fresh := Article_download (H:=Demo.env) (Demo.plain, Demo.empty) in
  stale.1 = Raise IntegrityError ∧ rows stale.2.2 = rows Demo.stale ∧
  fetched stale.2.2 = ["http://e.com/plain"] ∧
  fresh.1 = Ok tt ∧ rows fresh.2.2 = <[ "http://e.com/plain" := page ]> ∅ ∧
  (Article_download (H:=Demo.env) fresh.2).1 = Ok tt ∧
  fetched (Article_download (H:=Demo.env) fresh.2).2.2 = fetched fresh.2.2.
Proof.
  cbv zeta.
  pose proof (falsy_cache_is_a_miss (H:=Demo.env) Demo.plain Demo.stale
                "<article>plain</article>") as Hstale.
  pose proof (falsy_cache_is_a_miss (H:=Demo.env) Demo.plain Demo.empty
                "<article>plain</article>") as Hfresh.
  cbv zeta in Hstale, Hfresh.
  destruct Hstale as (_ & Hfetched & Hcase);
    [reflexivity | reflexivity | reflexivity | discriminate |].
  destruct Hfresh as (_ & _ & Hcase');
    [reflexivity | reflexivity | reflexivity | discriminate |].
  assert (Hrow : rows Demo.stale !! Article.url Demo.plain = Some "")
    by (vm_compute; reflexivity).
  assert (Hrow' : rows Demo.empty !! Article.url Demo.plain = None) by reflexivity.
  rewrite Hrow in Hcase. rewrite Hrow' in Hcase'.
  destruct Hcase as (Hr & Hrows). destruct Hcase' as (Hr' & Hrows' & Hr'' & _ & Hf'').
  repeat split; assumption.
Defined.

(** The content document of the built article "Six". *)
Lemma content_file_name_six :
  let r := Article_build (H:=Demo.env) (Demo.six, Demo.empty) in
  let book := Book "The Economist" "id" "en" [] None [] [] [] in
  ∃ book' item,
    add_article (book, []) r.2.1 r.2.2 = (Ok (book', [item]), r.2.2) ∧
    item_file_name item = "Six.xhtml".
Proof.
  cbv zeta.
  destruct (content_file_name
              (Article_build (H:=Demo.env) (Demo.six, Demo.empty)).2.1
              (Book "The Economist" "id" "en" [] None [] [] [], [])
              (Article_build (H:=Demo.env) (Demo.six, Demo.empty)).2.2)
    as (book' & item & Hrun & _ & Hname & _).
  - vm_compute. discriminate.
  - assert (Himgs : Article.images (Article_build (H:=Demo.env) (Demo.six, Demo.empty)).2.1
                    = ["images/0cc1-a.jpg"; "images/0cc1-b.jpg"]) by (vm_compute; reflexivity).
    rewrite Himgs. repeat constructor; vm_compute; eauto.
  - exists book', item. split; [exact Hrun|]. rewrite Hname. vm_compute. reflexivity.
Defined.

(** * More of the program *)

(** ** The world only gains *)

Lemma grows_refl w : grows w w.
Proof. repeat split; reflexivity. Qed.

Lemma grows_trans w1 w2 w3 : grows w1 w2 → grows w2 w3 → grows w1 w3.
Proof.
  intros (?&?&?&?&?&?&?) (?&?&?&?&?&?&?).
  repeat split; etrans; eassumption.
Qed.

Lemma bind_grows {A B} (m : M world A) (k : A → M world B) :
  (∀ w, grows w (m w).2) → (∀ a w, grows w (k a w).2) →
  ∀ w, grows w ((m ≫= k) w).2.
Proof.
  intros Hm Hk w. unfold mbind, M_bind. specialize (Hm w).
  destruct (m w) as [[a|e] w1]; simpl in *; [|exact Hm].
  eapply grows_trans; [exact Hm | apply Hk].
Qed.

Lemma bind_grows2 {O A B} (m : M (O * world) A) (k : A → M (O * world) B) :
  (∀ s, grows s.2 (m s).2.2) → (∀ a s, grows s.2 (k a s).2.2) →
  ∀ s, grows s.2 ((m ≫= k) s).2.2.
Proof.
  intros Hm Hk s. unfold mbind, M_bind. specialize (Hm s).
  destruct (m s) as [[a|e] s1]; simpl in *; [|exact Hm].
  eapply grows_trans; [exact Hm | apply Hk].
Qed.

Lemma lift_grows {O A} (m : M world A) :
  (∀ w, grows w (m w).2) → ∀ s : O * world, grows s.2 (lift m s).2.2.
Proof. intros Hm [o w]. rewrite lift_run. simpl. apply Hm. Qed.

Lemma fold_each_grows {A B} (body : B → A → M world B) (l : list A) :
  (∀ acc x w, grows w (body acc x w).2) →
  ∀ acc w, grows w (fold_each l body acc w).2.
Proof.
  intros Hbody. induction l as [|x l IH]; intros acc; cbn [fold_each].
  - intros w. apply grows_refl.
  - apply bind_grows; [apply Hbody | exact IH].
Qed.

Lemma fold_each_grows2 {O A B} (body : B → A → M (O * world) B) (l : list A) :
  (∀ acc x s, grows s.2 (body acc x s).2.2) →
  ∀ acc s, grows s.2 (fold_each l body acc s).2.2.
Proof.
  intros Hbody. induction l as [|x l IH]; intros acc; cbn [fold_each].
  - intros s. apply grows_refl.
  - apply bind_grows2; [apply Hbody | exact IH].
Qed.

Lemma for_each_grows2 {O A} (body : A → M (O * world) unit) (l : list A) :
  (∀ x s, grows s.2 (body x s).2.2) →
  ∀ s, grows s.2 (for_each l body s).2.2.
Proof.
  intros Hbody. induction l as [|x l IH]; cbn [for_each].
  - intros s. apply grows_refl.
  - apply bind_grows2; [apply Hbody | intros _; exact IH].
Qed.

Lemma for_each_object_grows {O} (method : M (O * world) unit) (l : list O) :
  (∀ s, grows s.2 (method s).2.2) →
  ∀ w, grows w (for_each_object l method w).2.2.
Proof.
  intros Hm. induction l as [|o l IH]; intros w; cbn [for_each_object].
  - apply grows_refl.
  - specialize (Hm (o, w)). destruct (method (o, w)) as [[u|e] [o' w']]; simpl in *.
    + specialize (IH w'). destruct (for_each_object l method w') as [r [l' w'']].
      simpl in *. eapply grows_trans; eassumption.
    + exact Hm.
Qed.

Lemma grows_log msg w : grows w (set_log (λ l, l ++ [msg]) w).
Proof. repeat split; simpl; try reflexivity. apply prefix_app_r. reflexivity. Qed.

Lemma grows_drop_fault f w : grows w (set_faults f w).
Proof. repeat split; reflexivity. Qed.

Lemma Database_get_grows url w : grows w (Database_get url w).2.
Proof.
  rewrite Database_get_run. unfold after_get. cbn [snd].
  assert (Hg : grows w (set_faults (drop 1) (set_selects (λ l, l ++ [url]) w))).
  { repeat split; simpl; try reflexivity. apply prefix_app_r. reflexivity. }
  destruct (failing w); [|exact Hg].
  eapply grows_trans; [exact Hg | apply grows_log].
Qed.

(** [Database.set] adds a row or changes nothing. *)
Lemma Database_set_run url html w :
  Database_set url html w =
    if failing w then (Raise OperationalError, set_faults (drop 1) w)
    else match rows w !! url with
         | Some _ => (Raise IntegrityError, set_faults (drop 1) w)
         | None => (Ok tt, set_rows (insert url html) (set_faults (drop 1) w))
         end.
Proof.
  unfold Database_set, insert_row, cursor_close, next_fault, failing. run.
  unfold mbind, M_bind, mret, M_ret. run.
  destruct w as [r d f s fe o l wr]; simpl.
  destruct f as [|[] f]; simpl; try reflexivity; destruct (r !! url); reflexivity.
Qed.

Lemma Database_set_grows url html w : grows w (Database_set url html w).2.
Proof.
  rewrite Database_set_run. destruct (failing w); [apply grows_drop_fault|].
  destruct (rows w !! url) eqn:Hrow; [apply grows_drop_fault|].
  repeat split; simpl; try reflexivity. apply insert_subseteq. exact Hrow.
Qed.

Section Growth.

Context `{Collaborators}.

Lemma grows_fetched u w : grows w (set_fetched (λ l, l ++ [u]) w).
Proof. repeat split; simpl; try reflexivity. apply prefix_app_r. reflexivity. Qed.

Lemma fetch_run url w :
  fetch url w =
    (match web url with
     | Some body => Ok body
     | None => Raise RequestException
     end, set_fetched (λ l, l ++ [url]) w).
Proof.
  unfold fetch, mbind, M_bind, modify, mret, M_ret, raise.
  destruct (web url); reflexivity.
Qed.

Lemma fetch_grows url w : grows w (fetch url w).2.
Proof. rewrite fetch_run. apply grows_fetched. Qed.

(** What [download_image] does, case by case. *)
Lemma download_image_run u mw w :
  download_image u mw w =
    match disk w !! image_filename u with
    | Some _ => (Ok (image_filename u), w)
    | None =>
        let w1 := set_fetched (λ l, l ++ [u]) w in
        match web u with
        | None => (Raise RequestException, w1)
        | Some data =>
            let w2 := set_opened (λ l, l ++ [u]) w1 in
            match Image_open data with
            | None => (Raise UnidentifiedImageError, w2)
            | Some im =>
                match fit im mw with
                | Raise e => (Raise e, w2)
                | Ok im' =>
                    if save_ok im' (image_filename u)
                    then (Ok (image_filename u), set_disk (insert (image_filename u) im') w2)
                    else (Raise SaveError, w2)
                end
            end
        end
    end.
Proof.
  unfold download_image, fetch, Image_save. run.
  unfold mbind, M_bind, mret, M_ret. run.
  destruct (disk w !! image_filename u); [reflexivity|].
  destruct (web u) as [data|]; simpl; [|reflexivity].
  destruct (Image_open data) as [im|]; simpl; [|reflexivity].
  destruct (fit im mw) as [im'|]; simpl; [|reflexivity].
  destruct (save_ok im' (image_filename u)); reflexivity.
Qed.

Lemma download_image_grows u mw w : grows w (download_image u mw w).2.
Proof.
  rewrite download_image_run.
  destruct (disk w !! image_filename u) eqn:Hd; [apply grows_refl|]. cbv zeta.
  assert (H1 : grows w (set_fetched (λ l, l ++ [u]) w)) by apply grows_fetched.
  destruct (web u) as [data|]; [|exact H1].
  assert (H2 : grows w (set_opened (λ l, l ++ [u]) (set_fetched (λ l, l ++ [u]) w))).
  { repeat split; simpl; try reflexivity; apply prefix_app_r; reflexivity. }
  destruct (Image_open data) as [im|]; [|exact H2].
  destruct (fit im mw) as [im'|]; [|exact H2].
  destruct (save_ok im' (image_filename u)); [|exact H2].
  repeat split; simpl; try reflexivity; try (apply prefix_app_r; reflexivity).
  apply insert_subseteq. exact Hd.
Qed.

Lemma Article_download_grows s : grows s.2 (Article_download s).2.2.
Proof.
  revert s. unfold Article_download.
  apply bind_grows2; [intros s; apply grows_refl | intros url].
  apply bind_grows2; [apply lift_grows, Database_get_grows | intros h].
  apply bind_grows2; [intros s; apply grows_refl | intros _].
  destruct (truthy h); [intros s; apply grows_refl|].
  apply bind_grows2; [apply lift_grows, fetch_grows | intros t].
  apply bind_grows2; [intros s; apply grows_refl | intros _].
  apply lift_grows, Database_set_grows.
Qed.

Lemma space_out_grows rate ps x s : grows s.2 (space_out rate ps x s).2.2.
Proof.
  revert s. unfold space_out.
  apply bind_grows2; [intros s; apply grows_refl | intros pos].
  apply bind_grows2; [apply lift_grows, download_image_grows | intros fn].
  apply bind_grows2; [intros s; apply grows_refl | intros _].
  intros s. apply grows_refl.
Qed.

Lemma Article_build_grows s : grows s.2 (Article_build s).2.2.
Proof.
  revert s. unfold Article_build.
  apply bind_grows2; [apply Article_download_grows | intros _].
  apply bind_grows2; [intros s; apply grows_refl | intros url].
  apply bind_grows2; [intros s; apply grows_refl | intros html].
  apply bind_grows2; [intros s; apply grows_refl | intros title].
  apply bind_grows2; [intros s; apply grows_refl | intros parsed].
  apply bind_grows2.
  { destruct (newspaper.has_top_image parsed); [|intros s; apply grows_refl].
    apply bind_grows2; [apply lift_grows, download_image_grows | intros fn].
    apply bind_grows2; [intros s; apply grows_refl | intros _].
    intros s. apply grows_refl. }
  intros content.
  apply bind_grows2; [intros s; apply grows_refl | intros rate].
  apply bind_grows2; [|intros ps s; apply grows_refl].
  apply fold_each_grows2. intros acc x s. apply space_out_grows.
Qed.

Lemma build_or_log_grows s : grows s.2 (build_or_log s).2.2.
Proof.
  destruct s as [a w]. rewrite build_or_log_run.
  pose proof (Article_build_grows (a, w)) as Hg.
  destruct (Article_build (a, w)) as [[[]|e] [a' w']]; simpl in *; [exact Hg|].
  eapply grows_trans; [exact Hg | apply grows_log].
Qed.

Lemma Section_build_grows s : grows s.2 (Section_build s).2.2.
Proof.
  unfold Section_build.
  pose proof (for_each_object_grows build_or_log (Section.articles s.1)
                build_or_log_grows s.2) as Hg.
  destruct (for_each_object _ _ _) as [r [l w']]. exact Hg.
Qed.

Lemma build_sections_grows s : grows s.2 (build_sections s).2.2.
Proof.
  unfold build_sections.
  pose proof (for_each_object_grows Section_build (Economist.sections s.1)
                Section_build_grows s.2) as Hg.
  destruct (for_each_object _ _ _) as [r [l w']]. exact Hg.
Qed.

Lemma Economist_fetch_issue_grows s : grows s.2 (Economist_fetch_issue s).2.2.
Proof.
  revert s. unfold Economist_fetch_issue.
  apply bind_grows2; [apply lift_grows, fetch_grows | intros html].
  apply bind_grows2; [intros s; apply grows_refl | intros _].
  apply bind_grows2; [intros s; apply grows_refl | intros page].
  apply bind_grows2.
  { destruct (index_cover page) as [src|]; intros s; apply grows_refl. }
  intros _. apply for_each_grows2. intros li s. apply grows_refl.
Qed.

Lemma read_image_grows f w : grows w (read_image f w).2.
Proof.
  unfold read_image, mbind, M_bind, gets, mret, M_ret, raise.
  destruct (disk w !! f); apply grows_refl.
Qed.

Lemma add_article_grows st a w : grows w (add_article st a w).2.
Proof.
  revert w. unfold add_article.
  destruct (String.eqb (Article.content a) "").
  - apply bind_grows; [intros w; apply grows_log | intros _ w; apply grows_refl].
  - apply bind_grows; [|intros book w; apply grows_refl].
    apply fold_each_grows. intros book f.
    apply bind_grows; [apply read_image_grows | intros img w; apply grows_refl].
Qed.

Lemma add_section_grows st s w : grows w (add_section st s w).2.
Proof.
  revert w. unfold add_section.
  apply bind_grows; [apply fold_each_grows; intros; apply add_article_grows | intros r].
  apply bind_grows; [intros w; apply grows_refl | intros first w; apply grows_refl].
Qed.

Lemma assemble_grows e w : grows w (assemble e w).2.
Proof.
  revert w. unfold assemble.
  apply bind_grows.
  { destruct (truthy (Economist.cover_img e)); [|intros w; apply grows_refl].
    apply bind_grows; [apply fetch_grows | intros img w; apply grows_refl]. }
  intros r.
  apply bind_grows; [apply fold_each_grows; intros; apply add_section_grows | intros r'].
  intros w. unfold write_epub, modify. simpl.
  repeat split; simpl; try reflexivity. apply prefix_app_r. reflexivity.
Qed.

(** X1. A whole run of [Economist.build], however it ends, only adds to
    the world: no cached page and no stored image is removed or changed,
    and what was logged, fetched or written before is still there. *)
Theorem Economist_build_only_adds (e : Economist.t) (w : world) :
  let w' := (Economist_build (e, w)).2.2 in
  (∀ url html, rows w !! url = Some html → rows w' !! url = Some html) ∧
  (∀ f im, disk w !! f = Some im → disk w' !! f = Some im) ∧
  log w `prefix_of` log w' ∧ fetched w `prefix_of` fetched w' ∧
  written w `prefix_of` written w'.
Proof.
  cbv zeta.
  assert (Hg : grows w (Economist_build (e, w)).2.2).
  { change w with (e, w).2 at 1. generalize (e, w). unfold Economist_build.
    apply bind_grows2; [apply Economist_fetch_issue_grows | intros _].
    apply bind_grows2; [apply build_sections_grows | intros _].
    apply bind_grows2; [intros s; apply grows_refl | intros e'].
    apply lift_grows. intros w0. apply assemble_grows. }
  destruct Hg as (Hrows & Hdisk & _ & Hf & _ & Hl & Hw).
  split; [intros url html Hu; eapply lookup_weaken; eassumption|].
  split; [intros f im Hi; eapply lookup_weaken; eassumption|]. auto.
Qed.

End Growth.

(** ** Images on disk *)

Section Stored.

Context `{Collaborators}.

Lemma stored_grows w w' a : grows w w' → stored w a → stored w' a.
Proof.
  intros (_ & Hdisk & _) Hs. unfold stored in *.
  eapply Forall_impl; [exact Hs|]. intros f [im Him].
  exists im. eapply lookup_weaken; eassumption.
Qed.

(** A download that returns has its file on disk. *)
Lemma download_image_stored u mw w fn w' :
  download_image u mw w = (Ok fn, w') → is_Some (disk w' !! fn).
Proof.
  intros Hrun. apply download_image_ok in Hrun as [-> [[Hsome ->]|(_ & data & im & im' & _ & _ & _ & _ & ->)]].
  - exact Hsome.
  - simpl. rewrite lookup_insert_eq. eauto.
Qed.

Lemma bind_stored {A B} (m : M (Article.t * world) A) (k : A → M (Article.t * world) B) :
  (∀ s, stored s.2 s.1 → stored (m s).2.2 (m s).2.1) →
  (∀ a s, stored s.2 s.1 → stored (k a s).2.2 (k a s).2.1) →
  ∀ s, stored s.2 s.1 → stored ((m ≫= k) s).2.2 ((m ≫= k) s).2.1.
Proof.
  intros Hm Hk s Hs. unfold mbind, M_bind. specialize (Hm s Hs).
  destruct (m s) as [[a|e] s1]; simpl in *; [apply Hk|]; exact Hm.
Qed.

(** [filename = download_image(img); self.images.append(filename)], and
    what follows. *)
Lemma download_append_stored {B} u mw (k : string → M (Article.t * world) B) :
  (∀ fn s, stored s.2 s.1 → stored (k fn s).2.2 (k fn s).2.1) →
  ∀ s, stored s.2 s.1 →
    let m := (filename ← lift (download_image u mw);
              _ ← update (Article.append_image filename);
              k filename) in
    stored (m s).2.2 (m s).2.1.
Proof.
  intros Hk [a w] Hs. cbv zeta. cbn [fst snd] in Hs.
  assert (Hrun : (filename ← lift (download_image u mw);
                  _ ← update (Article.append_image filename);
                  k filename) (a, w)
                 = match download_image u mw w with
                   | (Ok fn, w1) => k fn (Article.append_image fn a, w1)
                   | (Raise e, w1) => (Raise e, (a, w1))
                   end).
  { unfold mbind at 1. unfold M_bind. rewrite lift_run.
    destruct (download_image u mw w) as [[fn|e] w1]; reflexivity. }
  rewrite Hrun. clear Hrun.
  pose proof (download_image_grows u mw w) as Hg.
  destruct (download_image u mw w) as [[fn|e] w1] eqn:Hrun; cbn [fst snd] in *.
  - apply Hk. cbn [fst snd]. unfold stored. cbn [Article.images Article.append_image].
    apply Forall_app. split; [apply (stored_grows w w1 a Hg Hs)|].
    constructor; [|constructor]. eapply download_image_stored. exact Hrun.
  - apply (stored_grows w w1 a Hg Hs).
Qed.

Lemma lift_stored {A} (m : M world A) :
  (∀ w, grows w (m w).2) →
  ∀ s : Article.t * world, stored s.2 s.1 → stored (lift m s).2.2 (lift m s).2.1.
Proof.
  intros Hm [a w] Hs. rewrite lift_run. cbn [fst snd] in *.
  eapply stored_grows; [apply Hm | exact Hs].
Qed.

Lemma fold_each_stored {A B} (body : B → A → M (Article.t * world) B) (l : list A) :
  (∀ acc x s, stored s.2 s.1 → stored (body acc x s).2.2 (body acc x s).2.1) →
  ∀ acc s, stored s.2 s.1 →
    stored (fold_each l body acc s).2.2 (fold_each l body acc s).2.1.
Proof.
  intros Hbody. induction l as [|x l IH]; intros acc; cbn [fold_each].
  - intros s Hs. exact Hs.
  - apply bind_stored; [apply Hbody | exact IH].
Qed.

(** The invariant of [Article.build]: the listed images are on disk. *)
Lemma Article_build_stored (a : Article.t) (w : world) :
  stored w a →
  stored (Article_build (a, w)).2.2 (Article_build (a, w)).2.1.
Proof.
  change (stored (a, w).2 (a, w).1 →
          stored (Article_build (a, w)).2.2 (Article_build (a, w)).2.1).
  generalize (a, w). clear a w. unfold Article_build.
  apply bind_stored.
  { unfold Article_download.
    apply bind_stored; [intros s Hs; exact Hs | intros url].
    apply bind_stored; [apply lift_stored; intros w; apply Database_get_grows | intros h].
    apply bind_stored; [intros [a w] Hs; exact Hs | intros _].
    destruct (truthy h); [intros s Hs; exact Hs|].
    apply bind_stored; [apply lift_stored; intros w; apply fetch_grows | intros t].
    apply bind_stored; [intros [a w] Hs; exact Hs | intros _].
    apply lift_stored. intros w. apply Database_set_grows. }
  intros _.
  apply bind_stored; [intros s Hs; exact Hs | intros url].
  apply bind_stored; [intros s Hs; exact Hs | intros html].
  apply bind_stored; [intros s Hs; exact Hs | intros title].
  apply bind_stored; [intros s Hs; exact Hs | intros parsed].
  apply bind_stored.
  { destruct (newspaper.has_top_image parsed); [|intros s Hs; exact Hs].
    apply (download_append_stored _ _ (λ filename, mret (_ +:+ img_tag filename))).
    intros fn s Hs. exact Hs. }
  intros content.
  apply bind_stored; [intros s Hs; exact Hs | intros rate].
  apply bind_stored; [|intros ps [a w] Hs; exact Hs].
  apply fold_each_stored. intros acc x. unfold space_out.
  apply bind_stored; [intros s Hs; exact Hs | intros pos].
  apply (download_append_stored _ _ (λ filename, mret (py_insert pos (img_tag filename) acc))).
  intros fn s Hs. exact Hs.
Qed.

(** X2. [Article.build] keeps the images of the article on disk: if every
    file the article lists exists before the build, every file it lists
    exists after it, whether the build returned or raised. *)
Theorem Article_build_keeps_images_on_disk (a : Article.t) (w : world) :
  stored w a →
  stored (Article_build (a, w)).2.2 (Article_build (a, w)).2.1.
Proof. exact (Article_build_stored a w). Qed.

End Stored.

(** ** The book as a whole *)

Section Assembly.

Context `{Collaborators}.

Lemma add_items_app its its' b :
  add_items (its ++ its') b = add_items its' (add_items its b).
Proof. unfold add_items. apply fold_left_app. Qed.

Lemma add_items_book its : ∀ t i l a c items toc sp,
  add_items its (Book t i l a c items toc sp) = Book t i l a c (items ++ its) toc sp.
Proof.
  induction its as [|it its IH]; intros.
  - rewrite app_nil_r. reflexivity.
  - change (add_items (it :: its) (Book t i l a c items toc sp))
      with (add_items its (Book t i l a c (items ++ [it]) toc sp)).
    rewrite IH, <- app_assoc. reflexivity.
Qed.

(** The images of an article that are all on disk become image items. *)
Lemma read_images_run (l : list string) : ∀ book w,
  Forall (λ f, is_Some (disk w !! f)) l →
  fold_each l
    (λ book filename,
       img ← read_image filename;
       mret (add_item (EpubImage filename img) book)) book w
  = (Ok (add_items (omap (λ f, EpubImage f <$> disk w !! f) l) book), w).
Proof.
  induction l as [|f l IH]; intros book w Hall; cbn [fold_each].
  - reflexivity.
  - inversion Hall as [|? ? [im Him] Hl]; subst.
    erewrite bind_step;
      [|erewrite bind_step; [reflexivity | apply read_image_found; exact Him]].
    rewrite IH by exact Hl. cbn [omap list_omap]. rewrite Him. reflexivity.
Qed.

Lemma add_article_run book items a w :
  stored w a →
  ∃ w', add_article (book, items) a w
        = (Ok (if has_content a
               then (add_items (image_items (disk w) a) book, items ++ [content_item a])
               else (book, items)), w') ∧
        disk w' = disk w ∧ rows w' = rows w ∧ written w' = written w.
Proof.
  intros Hs. unfold has_content, add_article.
  destruct (String.eqb (Article.content a) "") eqn:E; cbn [negb].
  - eexists. split; [reflexivity|]. auto.
  - exists w. split; [|auto]. cbn [fst snd].
    erewrite bind_step; [|apply read_images_run; exact Hs]. reflexivity.
Qed.

(** The loop over the articles of a section. *)
Lemma add_articles_run (l : list Article.t) : ∀ book items w,
  Forall (stored w) l →
  ∃ w', fold_each l add_article (book, items) w
        = (Ok (add_items (concat (map (image_items (disk w)) (List.filter has_content l))) book,
               items ++ map content_item (List.filter has_content l)), w') ∧
        disk w' = disk w ∧ rows w' = rows w ∧ written w' = written w.
Proof.
  induction l as [|a l IH]; intros book items w Hall; cbn [fold_each].
  - exists w. cbn. rewrite app_nil_r. auto.
  - inversion Hall as [|? ? Ha Hl]; subst.
    destruct (add_article_run book items a w Ha) as (w1 & Hrun & Hd & Hr & Hw).
    rewrite (bind_step _ _ _ _ _ Hrun).
    assert (Hl1 : Forall (stored w1) l).
    { eapply Forall_impl; [exact Hl|]. intros x Hx. unfold stored in *. rewrite Hd. exact Hx. }
    cbn [List.filter]. destruct (has_content a).
    + destruct (IH (add_items (image_items (disk w) a) book) (items ++ [content_item a]) w1 Hl1)
        as (w' & Hrun' & Hd' & Hr' & Hw').
      exists w'. rewrite Hrun'. rewrite Hd. cbn [map concat].
      rewrite add_items_app, <- app_assoc.
      split; [reflexivity|]. split; [congruence|]. split; congruence.
    + destruct (IH book items w1 Hl1) as (w' & Hrun' & Hd' & Hr' & Hw').
      exists w'. rewrite Hrun'. rewrite Hd.
      split; [reflexivity|]. split; [congruence|]. split; congruence.
Qed.

(** One section: its entries, or [IndexError] when it has no item. *)
Lemma add_section_run book toc spine s w :
  Forall (stored w) (Section.articles s) →
  ∃ w', add_section (book, toc, spine) s w
        = (match section_items s with
           | [] => Raise IndexError
           | _ :: _ => Ok (add_items (section_book_items (disk w) s) book,
                           toc ++ [section_toc s],
                           spine ++ map SpineItem (section_items s))
           end, w') ∧
        disk w' = disk w ∧ rows w' = rows w ∧ written w' = written w.
Proof.
  intros Hall. unfold add_section. cbn [fst snd].
  destruct (add_articles_run (Section.articles s) book [] w Hall)
    as (w' & Hrun & Hd & Hr & Hw).
  exists w'. split; [|auto].
  rewrite (bind_step _ _ _ _ _ Hrun). cbn [fst snd app].
  unfold section_toc, section_book_items, section_items.
  destruct (map content_item (List.filter has_content (Section.articles s))) as [|it its] eqn:Hitems.
  - reflexivity.
  - unfold pure, first_item. unfold mbind, M_bind, mret, M_ret.
    fold (add_items (it :: its)
            (add_items (concat (map (image_items (disk w))
                                  (List.filter has_content (Section.articles s)))) book)).
    rewrite <- add_items_app. reflexivity.
Qed.

(** The loop over the sections when every section has an item. *)
Lemma add_sections_run (l : list Section.t) : ∀ book toc spine w,
  Forall (λ s, section_items s ≠ []) l →
  Forall (λ s, Forall (stored w) (Section.articles s)) l →
  ∃ w', fold_each l add_section (book, toc, spine) w
        = (Ok (add_items (concat (map (section_book_items (disk w)) l)) book,
               toc ++ map section_toc l,
               spine ++ map SpineItem (concat (map section_items l))), w') ∧
        disk w' = disk w ∧ rows w' = rows w ∧ written w' = written w.
Proof.
  induction l as [|s l IH]; intros book toc spine w Hne Hst; cbn [fold_each].
  - exists w. cbn. rewrite !app_nil_r. auto.
  - inversion Hne as [|? ? Hs Hl]; subst. inversion Hst as [|? ? Hss Hsl]; subst.
    destruct (add_section_run book toc spine s w Hss) as (w1 & Hrun & Hd & Hr & Hw).
    destruct (section_items s) as [|it its] eqn:Hitems; [contradiction|].
    rewrite (bind_step _ _ _ _ _ Hrun).
    assert (Hsl1 : Forall (λ s, Forall (stored w1) (Section.articles s)) l).
    { eapply Forall_impl; [exact Hsl|]. intros x Hx.
      eapply Forall_impl; [exact Hx|]. intros a Ha. unfold stored in *. rewrite Hd. exact Ha. }
    destruct (IH (add_items (section_book_items (disk w) s) book)
                 (toc ++ [section_toc s]) (spine ++ map SpineItem (it :: its)) w1 Hl Hsl1)
      as (w' & Hrun' & Hd' & Hr' & Hw').
    exists w'. rewrite Hrun', Hd. cbn [map concat]. rewrite Hitems.
    rewrite add_items_app, map_app, <- !app_assoc.
    split; [reflexivity|]. split; [congruence|]. split; congruence.
Qed.

(** The loop over the sections up to the first section without an item. *)
Lemma add_sections_stop (pre : list Section.t) : ∀ s post book toc spine w,
  Forall (λ s, section_items s ≠ []) pre → section_items s = [] →
  Forall (λ s, Forall (stored w) (Section.articles s)) (pre ++ [s]) →
  ∃ w', fold_each (pre ++ s :: post) add_section (book, toc, spine) w
        = (Raise IndexError, w') ∧ written w' = written w.
Proof.
  induction pre as [|p pre IH]; intros s post book toc spine w Hne Hs Hst; cbn [fold_each app].
  - inversion Hst as [|? ? Hss _]; subst.
    destruct (add_section_run book toc spine s w Hss) as (w1 & Hrun & _ & _ & Hw).
    rewrite Hs in Hrun. exists w1. rewrite (bind_stop _ _ _ _ _ Hrun). auto.
  - inversion Hne as [|? ? Hp Hl]; subst. inversion Hst as [|? ? Hps Hsl]; subst.
    destruct (add_section_run book toc spine p w Hps) as (w1 & Hrun & Hd & _ & Hw).
    destruct (section_items p) as [|it its] eqn:Hitems; [contradiction|].
    rewrite (bind_step _ _ _ _ _ Hrun).
    assert (Hsl1 : Forall (λ s, Forall (stored w1) (Section.articles s)) (pre ++ [s])).
    { eapply Forall_impl; [exact Hsl|]. intros x Hx.
      eapply Forall_impl; [exact Hx|]. intros a Ha. unfold stored in *. rewrite Hd. exact Ha. }
    destruct (IH s post (add_items (section_book_items (disk w) p) book)
                (toc ++ [section_toc p]) (spine ++ map SpineItem (it :: its))
                w1 Hl Hs Hsl1) as (w' & Hrun' & Hw').
    exists w'. rewrite Hrun'. split; [reflexivity | congruence].
Qed.

Lemma stored_disk w w' a : disk w' = disk w → stored w a → stored w' a.
Proof. unfold stored. intros ->. auto. Qed.

(** The assembly on sections that all have an item. *)
Lemma assemble_run (e : Economist.t) (w : world) (cover : option string) :
  cover = (if truthy (Economist.cover_img e)
           then web (default "" (Economist.cover_img e)) else None) →
  (truthy (Economist.cover_img e) = true → is_Some cover) →
  Forall (λ s, section_items s ≠ []) (Economist.sections e) →
  Forall (λ s, Forall (stored w) (Section.articles s)) (Economist.sections e) →
  ∃ w', assemble e w = (Ok tt, w') ∧
    written w' = written w
                 ++ [(Economist.id e +:+ ".epub", expected_book e cover (disk w))] ∧
    rows w' = rows w ∧ disk w' = disk w.
Proof.
  intros Hcover Hfetch Hne Hst. unfold assemble, expected_book.
  set (book0 := Book (Economist.title e) (Economist.id e) Economist.language
                  [Economist.author] None [] [] []).
  destruct (truthy (Economist.cover_img e)) eqn:Ht.
  - destruct (Hfetch eq_refl) as [img Himg]. subst cover.
    assert (Hf : fetch (default "" (Economist.cover_img e)) w
                 = (Ok img, set_fetched (λ l, l ++ [default "" (Economist.cover_img e)]) w))
      by (rewrite fetch_run, Himg; reflexivity).
    erewrite bind_step; [|erewrite bind_step; [reflexivity | exact Hf]].
    cbn [fst snd].
    set (w0 := set_fetched _ w).
    assert (Hst0 : Forall (λ s, Forall (stored w0) (Section.articles s)) (Economist.sections e)).
    { eapply Forall_impl; [exact Hst|]. intros x Hx.
      eapply Forall_impl; [exact Hx|]. intros a. apply stored_disk. reflexivity. }
    destruct (add_sections_run (Economist.sections e) (set_cover "image.jpg" img book0) []
                ([SpineRef "cover"] ++ [SpineRef "nav"]) w0 Hne Hst0)
      as (w' & Hrun & Hd & Hr & Hw).
    rewrite (bind_step _ _ _ _ _ Hrun). cbn [fst snd].
    eexists. split; [reflexivity|]. unfold write_epub, modify.
    cbn [written rows disk set_written snd]. rewrite Hw, Hr, Hd.
    split; [|split; reflexivity].
    unfold w0 at 1. cbn [written set_fetched]. do 3 f_equal.
    unfold book0, set_cover. cbn [book_title book_identifier book_language book_authors
                                   book_cover book_items book_toc book_spine].
    rewrite add_items_book. unfold set_toc_spine, add_item.
    cbn [book_title book_identifier book_language book_authors
         book_cover book_items book_toc book_spine app].
    rewrite Himg. rewrite <- app_assoc. reflexivity.
  - subst cover.
    erewrite bind_step; [|reflexivity]. cbn [fst snd].
    destruct (add_sections_run (Economist.sections e) book0 []
                ([] ++ [SpineRef "nav"]) w Hne Hst)
      as (w' & Hrun & Hd & Hr & Hw).
    rewrite (bind_step _ _ _ _ _ Hrun). cbn [fst snd].
    eexists. split; [reflexivity|]. unfold write_epub, modify.
    cbn [written rows disk set_written snd]. rewrite Hw, Hr, Hd.
    split; [|split; reflexivity].
    do 3 f_equal.
    unfold book0. rewrite add_items_book. unfold set_toc_spine, add_item.
    cbn [book_title book_identifier book_language book_authors
         book_cover book_items book_toc book_spine app].
    rewrite <- app_assoc. reflexivity.
Qed.


(** X4. Whichever section is the first without an article with content,
    and whether or not the issue has a cover, the assembly raises
    [IndexError] at that section and no file is written: the sections before
    it do not save the book. *)
Theorem assemble_stops_at_empty_section (e : Economist.t) (w : world)
    (pre post : list Section.t) (s : Section.t) :
  Economist.sections e = pre ++ s :: post →
  Forall (λ s, section_items s ≠ []) pre → section_items s = [] →
  Forall (λ s, Forall (stored w) (Section.articles s)) (pre ++ [s]) →
  (truthy (Economist.cover_img e) = true →
   is_Some (web (default "" (Economist.cover_img e)))) →
  ∃ w', assemble e w = (Raise IndexError, w') ∧ written w' = written w.
Proof.
  intros Hsec Hne Hs Hst Hfetch. unfold assemble. rewrite Hsec.
  destruct (truthy (Economist.cover_img e)) eqn:Ht.
  - destruct (Hfetch eq_refl) as [img Himg].
    assert (Hf : fetch (default "" (Economist.cover_img e)) w
                 = (Ok img, set_fetched (λ l, l ++ [default "" (Economist.cover_img e)]) w))
      by (rewrite fetch_run, Himg; reflexivity).
    erewrite bind_step; [|erewrite bind_step; [reflexivity | exact Hf]].
    cbn [fst snd]. set (w0 := set_fetched _ w).
    assert (Hst0 : Forall (λ s, Forall (stored w0) (Section.articles s)) (pre ++ [s])).
    { eapply Forall_impl; [exact Hst|]. intros x Hx.
      eapply Forall_impl; [exact Hx|]. intros a. apply stored_disk. reflexivity. }
    destruct (add_sections_stop pre s post
                (set_cover "image.jpg" img
                   (Book (Economist.title e) (Economist.id e) Economist.language
                      [Economist.author] None [] [] []))
                [] ([SpineRef "cover"] ++ [SpineRef "nav"]) w0 Hne Hs Hst0)
      as (w' & Hrun & Hw).
    exists w'. rewrite (bind_stop _ _ _ _ _ Hrun). split; [reflexivity | exact Hw].
  - erewrite bind_step; [|reflexivity]. cbn [fst snd].
    destruct (add_sections_stop pre s post
                (Book (Economist.title e) (Economist.id e) Economist.language
                   [Economist.author] None [] [] [])
                [] ([] ++ [SpineRef "nav"]) w Hne Hs Hst)
      as (w' & Hrun & Hw).
    exists w'. rewrite (bind_stop _ _ _ _ _ Hrun). split; [reflexivity | exact Hw].
Qed.

(** X5. A cover that cannot be fetched ends the run: the assembly raises
    what [fetch] raised before any section is looked at, nothing is logged
    and no file is written. *)
Theorem cover_failure_ends_the_run (e : Economist.t) (w : world) (src : string) :
  Economist.cover_img e = Some src → src ≠ "" → web src = None →
  assemble e w = (Raise RequestException, set_fetched (λ l, l ++ [src]) w).
Proof.
  intros Hc Hne Hweb. unfold assemble. rewrite Hc. rewrite (truthy_nonempty src Hne).
  apply bind_stop. apply bind_stop. rewrite fetch_run. simpl. rewrite Hweb. reflexivity.
Qed.

End Assembly.

(** ** Building, then assembling *)

Section Pipeline.

Context `{Collaborators}.

(** A loop over objects keeps what every call keeps, when what holds of
    an object in a world holds of it in every world grown from it. *)
Lemma for_each_object_inv {O} (I : world → O → Prop) (method : M (O * world) unit)
    (l : list O) :
  (∀ w w' o, grows w w' → I w o → I w' o) →
  (∀ o w, I w o → I (method (o, w)).2.2 (method (o, w)).2.1) →
  (∀ s, grows s.2 (method s).2.2) →
  ∀ w, Forall (I w) l →
       Forall (I (for_each_object l method w).2.2) (for_each_object l method w).2.1.
Proof.
  intros Hmono Hkeep Hgrow. induction l as [|o l IH]; intros w Hall; cbn [for_each_object].
  - constructor.
  - inversion Hall as [|? ? Ho Hl]; subst.
    specialize (Hkeep o w Ho). pose proof (Hgrow (o, w)) as Hstep.
    destruct (method (o, w)) as [[u|e] [o' w']]; cbn [fst snd] in *.
    + assert (Hl' : Forall (I w') l)
        by (eapply Forall_impl; [exact Hl | intros x; apply Hmono; exact Hstep]).
      specialize (IH w' Hl').
      pose proof (for_each_object_grows method l Hgrow w') as Hg.
      destruct (for_each_object l method w') as [r [l' w'']]; cbn [fst snd] in *.
      constructor; [eapply Hmono; eassumption | exact IH].
    + constructor; [exact Hkeep|].
      eapply Forall_impl; [exact Hl | intros x; apply Hmono; exact Hstep].
Qed.

Lemma for_each_object_total {O} (method : M (O * world) unit) (l : list O) :
  (∀ s, (method s).1 = Ok tt) →
  ∀ w, (for_each_object l method w).1 = Ok tt ∧
       length (for_each_object l method w).2.1 = length l.
Proof.
  intros Htot. induction l as [|o l IH]; intros w; cbn [for_each_object].
  - auto.
  - specialize (Htot (o, w)).
    destruct (method (o, w)) as [[u|e] [o' w']]; [|discriminate].
    specialize (IH w'). destruct (for_each_object l method w') as [r [l' w'']].
    cbn [fst snd length] in *. destruct IH as [-> ->]. auto.
Qed.

Lemma build_or_log_stored a w :
  stored w a → stored (build_or_log (a, w)).2.2 (build_or_log (a, w)).2.1.
Proof.
  intros Hs. rewrite build_or_log_run.
  pose proof (Article_build_stored a w Hs) as Hk.
  destruct (Article_build (a, w)) as [[[]|e] [a' w']]; cbn [fst snd] in *; [exact Hk|].
  eapply stored_grows; [apply grows_log | exact Hk].
Qed.

Lemma Section_build_total s : (Section_build s).1 = Ok tt.
Proof.
  unfold Section_build.
  pose proof (for_each_object_total build_or_log (Section.articles s.1)
                build_or_log_total s.2) as [Hok _].
  destruct (for_each_object _ _ _) as [r [l w']]. exact Hok.
Qed.

Lemma Section_build_stored s w :
  Forall (stored w) (Section.articles s) →
  Forall (stored (Section_build (s, w)).2.2) (Section.articles (Section_build (s, w)).2.1).
Proof.
  intros Hall. unfold Section_build. cbn [fst snd].
  pose proof (for_each_object_inv stored build_or_log (Section.articles s)
                stored_grows build_or_log_stored build_or_log_grows w Hall) as Hinv.
  destruct (for_each_object _ _ _) as [r [l w']]. exact Hinv.
Qed.

(** The loop over the sections, and the assembly after it. *)
Lemma built_sections_run (e : Economist.t) (w : world) :
  Forall (λ s, Forall (stored w) (Section.articles s)) (Economist.sections e) →
  let r := build_sections (e, w) in
  r.1 = Ok tt ∧
  Economist.id r.2.1 = Economist.id e ∧ Economist.title r.2.1 = Economist.title e ∧
  Economist.cover_img r.2.1 = Economist.cover_img e ∧
  length (Economist.sections r.2.1) = length (Economist.sections e) ∧
  Forall (λ s, Forall (stored r.2.2) (Section.articles s)) (Economist.sections r.2.1) ∧
  ∀ cover,
    cover = (if truthy (Economist.cover_img e)
             then web (default "" (Economist.cover_img e)) else None) →
    (truthy (Economist.cover_img e) = true → is_Some cover) →
    Forall (λ s, section_items s ≠ []) (Economist.sections r.2.1) →
    ∃ w', assemble r.2.1 r.2.2 = (Ok tt, w') ∧
      written w' = written r.2.2
                   ++ [(Economist.id e +:+ ".epub", expected_book r.2.1 cover (disk r.2.2))].
Proof.
  intros Hall. cbv zeta. unfold build_sections. cbn [fst snd].
  pose proof (for_each_object_total Section_build (Economist.sections e)
                Section_build_total w) as [Hok Hlen].
  pose proof (for_each_object_inv (λ w s, Forall (stored w) (Section.articles s))
                Section_build (Economist.sections e)) as Hinv.
  specialize (Hinv ltac:(intros w1 w2 s Hg Hs; eapply Forall_impl;
                           [exact Hs | intros a; apply stored_grows; exact Hg])).
  specialize (Hinv ltac:(intros s w1; apply Section_build_stored)).
  specialize (Hinv Section_build_grows w Hall).
  destruct (for_each_object _ _ _) as [r [l w']]. cbn [fst snd] in *.
  split; [exact Hok|]. split; [reflexivity|]. split; [reflexivity|].
  split; [reflexivity|]. split; [exact Hlen|]. split; [exact Hinv|].
  intros cover Hcover Hfetch Hne.
  destruct (assemble_run (set_sections l e) w' cover Hcover Hfetch Hne Hinv)
    as (w'' & Hrun & Hw & _).
  exists w''. split; [exact Hrun | exact Hw].
Qed.


End Pipeline.

(** ** What building leaves alone *)

Section Quiet.

Context `{Collaborators}.






Lemma download_image_rows u mw w : rows (download_image u mw w).2 = rows w.
Proof.
  rewrite download_image_run.
  destruct (disk w !! image_filename u); [reflexivity|]. cbv zeta.
  destruct (web u) as [data|]; [|reflexivity].
  destruct (Image_open data) as [im|]; [|reflexivity].
  destruct (fit im mw) as [im'|]; [|reflexivity].
  destruct (save_ok im' (image_filename u)); reflexivity.
Qed.








End Quiet.

(** ** The issue *)

Section Issue.

Context `{Collaborators}.

Lemma append_sections_run (l : list (string * list (list string * string))) : ∀ e w,
  for_each l
    (λ li, update (λ e, set_sections (Economist.sections e ++ [index_section li]) e)) (e, w)
  = (Ok tt, (set_sections (Economist.sections e ++ map index_section l) e, w)).
Proof.
  induction l as [|li l IH]; intros e w; cbn [for_each map].
  - unfold mret, M_ret. rewrite app_nil_r. destruct e; reflexivity.
  - erewrite bind_step; [|reflexivity]. cbn [fst snd]. rewrite IH.
    unfold set_sections. cbn [Economist.id Economist.title Economist.cover_img
                                Economist.sections].
    rewrite <- app_assoc. reflexivity.
Qed.

(** [fetch_issue] on a page that is fetched and parsed. *)
Lemma fetch_issue_run (e : Economist.t) (w : world) (html : string)
    (page : index_page) :
  web Economist.print_edition = Some html → parse_index html = Ok page →
  Economist_fetch_issue (e, w)
  = (Ok tt, (discovered e page, set_fetched (λ l, l ++ [Economist.print_edition]) w)) ∧
  Forall (λ s, Forall (λ a, fresh a ∧ Article.html a = Some "" ∧
                            Economist.starts_with_slash (Article.url a) = false)
                 (Section.articles s))
         (map index_section (index_items page)) ∧
  map Section.title (map index_section (index_items page)) = map fst (index_items page).
Proof.
  intros Hweb Hparse. split; [|split].
  - unfold Economist_fetch_issue.
    erewrite bind_step; [|rewrite lift_run, fetch_run, Hweb; reflexivity]. cbn [fst snd].
    erewrite bind_step; [|reflexivity]. cbn [fst snd].
    erewrite bind_step; [|unfold pure; rewrite Hparse; reflexivity].
    unfold discovered.
    destruct (index_cover page) as [src|].
    + erewrite bind_step; [|reflexivity]. cbn [fst snd]. rewrite append_sections_run.
      reflexivity.
    + erewrite bind_step; [|reflexivity]. rewrite append_sections_run.
      reflexivity.
  - apply Forall_forall. intros s Hs. apply list_elem_of_fmap in Hs as (li & -> & _).
    apply Forall_forall. intros a Ha. cbn [index_section Section.articles] in Ha.
    apply list_elem_of_fmap in Ha as (link & -> & _).
    split; [split; reflexivity|]. split; [reflexivity|].
    cbn [Article.new Article.url]. unfold Economist.absolute_url.
    destruct (Economist.starts_with_slash link.2) eqn:E; [reflexivity | exact E].
  - rewrite map_map. apply map_ext. intros li. reflexivity.
Qed.

(** X7. [fetch_issue] on a fetched and parsed index page: the id and the
    title end in the last ten characters of the resolved url; the cover is
    the page's, or stays what it was when the page has none; the page's
    sections are appended, in the page's order, after the sections the
    object already had; only the index page is fetched.  Every article of
    the new sections is fresh (no html, no images, no content), its title
    the span texts joined by [" - "], and its url does not start with a
    slash. *)
Theorem fetch_issue_discovers (e : Economist.t) (w : world) (html : string)
    (page : index_page) :
  web Economist.print_edition = Some html → parse_index html = Ok page →
  Economist_fetch_issue (e, w)
  = (Ok tt, (discovered e page, set_fetched (λ l, l ++ [Economist.print_edition]) w)) ∧
  Forall (λ s, Forall (λ a, fresh a ∧ Article.html a = Some "" ∧
                            Economist.starts_with_slash (Article.url a) = false)
                 (Section.articles s))
         (map index_section (index_items page)) ∧
  map Section.title (map index_section (index_items page)) = map fst (index_items page).
Proof. exact (fetch_issue_run e w html page). Qed.



End Issue.

(** ** What a build attempt leaves of an article *)

Section Identity.

Context `{Collaborators}.

Lemma bind_identity {A B} a (m : M (Article.t * world) A) (k : A → M (Article.t * world) B) :
  (∀ s, identity_kept a s → identity_kept a (m s).2) →
  (∀ x s, identity_kept a s → identity_kept a (k x s).2) →
  ∀ s, identity_kept a s → identity_kept a ((m ≫= k) s).2.
Proof.
  intros Hm Hk s Hs. unfold mbind, M_bind. specialize (Hm s Hs).
  destruct (m s) as [[x|e] s1]; simpl in *; [apply Hk|]; exact Hm.
Qed.

Lemma bind_kept_unless_ok {A B} a (m : M (Article.t * world) A)
    (k : A → M (Article.t * world) B) :
  (∀ s, identity_kept a s → identity_kept a (m s).2) →
  (∀ x s, identity_kept a s → kept_unless_ok a (k x s)) →
  ∀ s, identity_kept a s → kept_unless_ok a ((m ≫= k) s).
Proof.
  intros Hm Hk s Hs. unfold mbind, M_bind. specialize (Hm s Hs).
  destruct (m s) as [[x|e] s1]; simpl in *; [apply Hk; exact Hm|].
  destruct Hm as (Hu & Ht & Hc). repeat split; auto.
Qed.

Lemma lift_identity {A} a (m : M world A) :
  ∀ s : Article.t * world, identity_kept a s → identity_kept a (lift m s).2.
Proof. intros [b w] Hs. rewrite lift_run. exact Hs. Qed.

Lemma set_html_identity a h :
  ∀ s : Article.t * world, identity_kept a s → identity_kept a (update (Article.set_html h) s).2.
Proof. intros [b w] Hs. exact Hs. Qed.

Lemma append_image_identity a f :
  ∀ s : Article.t * world,
    identity_kept a s → identity_kept a (update (Article.append_image f) s).2.
Proof. intros [b w] Hs. exact Hs. Qed.

Lemma fold_each_identity {A B} a (body : B → A → M (Article.t * world) B) (l : list A) :
  (∀ acc x s, identity_kept a s → identity_kept a (body acc x s).2) →
  ∀ acc s, identity_kept a s → identity_kept a (fold_each l body acc s).2.
Proof.
  intros Hbody. induction l as [|x l IH]; intros acc; cbn [fold_each].
  - intros s Hs. exact Hs.
  - apply bind_identity; [apply Hbody | exact IH].
Qed.

Lemma Article_build_kept (a : Article.t) (w : world) :
  kept_unless_ok a (Article_build (a, w)).
Proof.
  assert (Hinit : identity_kept a (a, w)) by (repeat split).
  revert Hinit. generalize (a, w). unfold Article_build.
  apply bind_kept_unless_ok.
  { unfold Article_download.
    apply bind_identity; [intros s Hs; exact Hs | intros url].
    apply bind_identity; [apply lift_identity | intros h].
    apply bind_identity; [apply set_html_identity | intros _].
    destruct (truthy h); [intros s Hs; exact Hs|].
    apply bind_identity; [apply lift_identity | intros t].
    apply bind_identity; [apply set_html_identity | intros _].
    apply lift_identity. }
  intros _.
  apply bind_kept_unless_ok; [intros s Hs; exact Hs | intros url].
  apply bind_kept_unless_ok; [intros s Hs; exact Hs | intros html].
  apply bind_kept_unless_ok; [intros s Hs; exact Hs | intros title].
  apply bind_kept_unless_ok; [intros s Hs; exact Hs | intros parsed].
  apply bind_kept_unless_ok.
  { destruct (newspaper.has_top_image parsed); [|intros s Hs; exact Hs].
    apply bind_identity; [apply lift_identity | intros fn].
    apply bind_identity; [apply append_image_identity | intros _].
    intros s Hs. exact Hs. }
  intros content.
  apply bind_kept_unless_ok; [intros s Hs; exact Hs | intros rate].
  apply bind_kept_unless_ok.
  { apply fold_each_identity. intros acc x. unfold space_out.
    apply bind_identity; [intros s Hs; exact Hs | intros pos].
    apply bind_identity; [apply lift_identity | intros fn].
    apply bind_identity; [apply append_image_identity | intros _].
    intros s Hs. exact Hs. }
  intros ps [b w0] (Hu & Ht & _). repeat split; [exact Hu | exact Ht | discriminate].
Qed.

(** Url, title and content after a build attempt. *)
Lemma Article_build_outcome (a : Article.t) (w : world) :
  let r := Article_build (a, w) in
  Article.url r.2.1 = Article.url a ∧ Article.title r.2.1 = Article.title a ∧
  match r.1 with
  | Ok _ => Article.content r.2.1 ≠ ""
  | Raise _ => Article.content r.2.1 = Article.content a
  end.
Proof.
  cbv zeta. destruct (Article_build_kept a w) as (Hu & Ht & Hc).
  split; [exact Hu|]. split; [exact Ht|].
  destruct (Article_build (a, w)) as [[[]|e] [a' w']] eqn:Hrun; cbn [fst snd] in *.
  - eapply Article_build_content. exact Hrun.
  - eapply Hc. reflexivity.
Qed.

(** X10. The content of an article tells whether its build succeeded,
    which is what [Economist.build] reads it for: a build that returns
    leaves content that is not empty; a build that raises leaves the content
    as it was, empty for an article fresh from [fetch_issue].  Url and title
    are never changed. *)
Theorem content_tells_success (a : Article.t) (w : world) :
  let r := Article_build (a, w) in
  Article.url r.2.1 = Article.url a ∧ Article.title r.2.1 = Article.title a ∧
  match r.1 with
  | Ok _ => Article.content r.2.1 ≠ ""
  | Raise _ => Article.content r.2.1 = Article.content a
  end.
Proof. exact (Article_build_outcome a w). Qed.

Lemma build_or_log_attempted a w : attempted a (build_or_log (a, w)).2.1.
Proof.
  rewrite build_or_log_run.
  pose proof (Article_build_outcome a w) as Hc. cbv zeta in Hc.
  destruct (Article_build (a, w)) as [[[]|e] [a' w']]; cbn [fst snd] in *;
    destruct Hc as (Hu & Ht & Hc); repeat split; auto.
Qed.

(** X11. [Section.build] keeps the section's articles in their order, each
    with its url and its title; the content of each is what it was or is
    not empty.  So in a section fresh from [fetch_issue] the articles with
    content after the build are exactly those whose build returned. *)
Theorem section_build_keeps_articles (s : Section.t) (w : world) :
  Forall2 attempted (Section.articles s) (Section.articles (Section_build (s, w)).2.1).
Proof.
  unfold Section_build. cbn [fst snd].
  assert (Hgen : ∀ l w0, Forall2 attempted l (for_each_object l build_or_log w0).2.1).
  { induction l as [|a l IH]; intros w0; cbn [for_each_object]; [constructor|].
    pose proof (build_or_log_attempted a w0) as Ha.
    destruct (build_or_log (a, w0)) as [[u|e] [a' w']]; cbn [fst snd] in *.
    - specialize (IH w'). destruct (for_each_object l build_or_log w') as [r [l' w'']].
      constructor; assumption.
    - constructor; [exact Ha|].
      clear. induction l; constructor; [repeat split; auto | assumption]. }
  specialize (Hgen (Section.articles s) w).
  destruct (for_each_object _ _ _) as [r [l w']]. exact Hgen.
Qed.

(** X12. A page in the cache is not fetched again: when the table holds a
    non-empty html for the article's url and the lookup hits no storage
    failure, [Article.download] takes the html from the table, requests
    nothing over HTTP and writes nothing to the table. *)
Theorem cached_page_is_not_fetched (a : Article.t) (w : world) (h : string) :
  rows w !! Article.url a = Some h → h ≠ "" → failing w = false →
  ∃ w', Article_download (a, w) = (Ok tt, (Article.set_html (Some h) a, w')) ∧
        fetched w' = fetched w ∧ rows w' = rows w ∧ log w' = log w ∧
        selects w' = selects w ++ [Article.url a].
Proof.
  intros Hrow Hh Hf.
  assert (Hseen : seen (Article.url a) w = Some h) by (unfold seen; rewrite Hf; exact Hrow).
  exists (after_get (Article.url a) w).
  rewrite Article_download_cached by (rewrite Hseen; apply truthy_nonempty; exact Hh).
  rewrite Hseen. unfold after_get. rewrite Hf. repeat split.
Qed.

(** X13. [download_image] writes at most its own file, and that only when
    it is not there yet: every other file is left alone, an existing file
    is never overwritten, a call that raises stores nothing, and the cache
    table is never touched. *)
Theorem download_image_writes_one_new_file (u : string) (mw : Z) (w : world) :
  let r := download_image u mw w in
  (∀ f, f ≠ image_filename u → disk r.2 !! f = disk w !! f) ∧
  (∀ im, disk w !! image_filename u = Some im → r.2 = w) ∧
  (∀ e, r.1 = Raise e → disk r.2 = disk w ∧ disk w !! image_filename u = None) ∧
  rows r.2 = rows w.
Proof.
  cbv zeta. rewrite download_image_run.
  destruct (disk w !! image_filename u) as [im0|] eqn:Hd.
  { cbn [fst snd]. repeat split; auto; discriminate. }
  cbv zeta.
  destruct (web u) as [data|]; [|cbn; repeat split; auto; discriminate].
  destruct (Image_open data) as [im|]; [|cbn; repeat split; auto; discriminate].
  destruct (fit im mw) as [im'|]; [|cbn; repeat split; auto; discriminate].
  destruct (save_ok im' (image_filename u)); [|cbn; repeat split; auto; discriminate].
  cbn [fst snd]. split; [|repeat split; auto; discriminate].
  intros f Hf. cbn. apply lookup_insert_ne. congruence.
Qed.

End Identity.

(** X14. The table is insert-only.  Whatever [Database.set] does, every
    row that was there is still there with the same html and the rows of
    other urls are what they were; a [set] that raises changes no row; a
    [set] that returns has added the row for a url that had none. *)
Theorem set_is_insert_only (url html : string) (w : world) :
  let r := Database_set url html w in
  (∀ u v, rows w !! u = Some v → rows r.2 !! u = Some v) ∧
  (∀ u, u ≠ url → rows r.2 !! u = rows w !! u) ∧
  match r.1 with
  | Ok _ => rows w !! url = None ∧ rows r.2 = <[url := html]> (rows w)
  | Raise _ => rows r.2 = rows w
  end.
Proof.
  cbv zeta. rewrite Database_set_run.
  destruct (failing w); [cbn; auto|].
  destruct (rows w !! url) as [v0|] eqn:Hrow; [cbn; auto|].
  cbn [fst snd]. split; [|split; [|auto]].
  - intros u v Hu. cbn. rewrite lookup_insert_ne by congruence. exact Hu.
  - intros u Hu. cbn. apply lookup_insert_ne. congruence.
Qed.

(** X15. [absolute_url] gives a url that does not start with a slash,
    leaves such a url as it is, and so changes nothing when applied
    twice. *)
Theorem absolute_url_is_absolute (url : string) :
  Economist.starts_with_slash (Economist.absolute_url url) = false ∧
  (Economist.starts_with_slash url = false → Economist.absolute_url url = url) ∧
  Economist.absolute_url (Economist.absolute_url url) = Economist.absolute_url url.
Proof.
  assert (H1 : Economist.starts_with_slash (Economist.absolute_url url) = false).
  { unfold Economist.absolute_url.
    destruct (Economist.starts_with_slash url) eqn:E; [reflexivity | exact E]. }
  split; [exact H1|]. split.
  - intros E. unfold Economist.absolute_url. rewrite E. reflexivity.
  - unfold Economist.absolute_url at 1. rewrite H1. reflexivity.
Qed.

(** ** The text among the images *)

Lemma py_insert_perm {A} (pos : Z) (x : A) (l : list A) : py_insert pos x l ≡ₚ x :: l.
Proof.
  unfold py_insert. rewrite <- Permutation_middle. rewrite take_drop. reflexivity.
Qed.

Lemma py_insert_sublist {A} (pos : Z) (x : A) (l : list A) :
  l `sublist_of` py_insert pos x l.
Proof.
  unfold py_insert.
  set (p := Z.to_nat _). rewrite <- (take_drop p l) at 1.
  apply sublist_app; [reflexivity|]. apply sublist_cons. reflexivity.
Qed.

Lemma interleave_keeps_text rate blocks : ∀ i ps ps',
  interleave rate i blocks ps = Ok ps' →
  ps `sublist_of` ps' ∧ ps' ≡ₚ ps ++ blocks.
Proof.
  induction blocks as [|b blocks IH]; intros i ps ps'; cbn [interleave].
  - intros [= <-]. rewrite app_nil_r. split; reflexivity.
  - unfold mbind, result_bind. destruct (position i rate) as [pos|]; [|discriminate].
    intros Hrest. apply IH in Hrest as [Hsub Hperm]. split.
    + etrans; [apply (py_insert_sublist pos b) | exact Hsub].
    + rewrite Hperm, py_insert_perm. simpl. apply Permutation_middle.
Qed.

Section Text.

Context `{Collaborators}.

(** The image loop appends the file of every image, in the images' order. *)
Lemma image_loop_images rate imgs : ∀ i ps s ps' s',
  fold_each (enumerate i imgs) (space_out rate) ps s = (Ok ps', s') →
  Article.images s'.1 = Article.images s.1 ++ map image_filename imgs.
Proof.
  induction imgs as [|img imgs IH]; intros i ps s ps' s' Hrun; cbn [enumerate fold_each] in Hrun.
  - unfold mret, M_ret in Hrun. injection Hrun as <- <-. rewrite app_nil_r. reflexivity.
  - split_bind Hrun ps1 s1 Hstep. apply IH in Hrun. rewrite Hrun. clear Hrun IH.
    unfold space_out in Hstep.
    split_bind Hstep pos s2 Hpos. apply pure_ok in Hpos as [_ ->].
    split_bind Hstep fn s2 Hdl. destruct s as [a w], s2 as [a2 w2].
    apply lift_ok in Hdl as [Hdl ->]. apply download_image_ok in Hdl as [-> _].
    split_bind Hstep u s3 Hup. apply update_ok in Hup as ->.
    unfold mret, M_ret in Hstep. injection Hstep as <- <-.
    cbn. rewrite <- app_assoc. reflexivity.
Qed.

(** X16. In a built article no text is lost among the images and no image
    is missing: the list that is joined by [<br>] holds the paragraphs of
    the text in their order, and is the paragraphs and the blocks of the
    images that are not the top image, each once, in some order. *)
Theorem build_keeps_the_text (a a' : Article.t) (w w' : world) :
  Article_build (a, w) = (Ok tt, (a', w')) →
  ∃ h parsed ps,
    Article.html a' = Some h ∧ extract (Article.url a) h = Ok parsed ∧
    let images := filter (λ i, i ≠ newspaper.top_image parsed) (newspaper.images parsed) in
    let paragraphs := py_split newline (newspaper.text parsed) in
    let header := "<h1>" +:+ Article.title a +:+ "</h1>" in
    Article.content a' =
      (if newspaper.has_top_image parsed
       then header +:+ block (newspaper.top_image parsed) else header)
      +:+ py_join "<br>" ps ∧
    paragraphs `sublist_of` ps ∧
    ps ≡ₚ paragraphs ++ map block images ∧
    length ps = (length paragraphs + length images)%nat.
Proof.
  intros Hrun. apply Article_build_ok in Hrun as (h & parsed & rate & ps & Hh & Hp & Hrest).
  cbv zeta in Hrest. destruct Hrest as (_ & Hloop & Hc).
  apply interleave_keeps_text in Hloop as [Hsub Hperm].
  exists h, parsed, ps. cbv zeta. repeat (split; [assumption|]).
  rewrite Hperm, length_app, length_map. reflexivity.
Qed.

(** X17. A built article lists its image files in the order they were
    taken: what it listed before, then the top image if there is one, then
    the other images in the order of the page; each at its deterministic
    path. *)
Theorem build_lists_its_images (a a' : Article.t) (w w' : world) :
  Article_build (a, w) = (Ok tt, (a', w')) →
  ∃ h parsed,
    Article.html a' = Some h ∧ extract (Article.url a) h = Ok parsed ∧
    Article.images a' =
      Article.images a
      ++ (if newspaper.has_top_image parsed
          then [image_filename (newspaper.top_image parsed)] else [])
      ++ map image_filename
           (filter (λ i, i ≠ newspaper.top_image parsed) (newspaper.images parsed)).
Proof.
  unfold Article_build. intros Hrun.
  split_bind Hrun u s1 Hdl. destruct s1 as [a1 w1].
  pose proof (Article_download_fields a w) as Hfields. cbv zeta in Hfields.
  rewrite Hdl in Hfields. cbn [fst snd] in Hfields.
  destruct Hfields as (Hurl & _ & Himgs & _ & _ & _).
  split_bind Hrun url s2 Hu. apply self_ok in Hu as [-> ->].
  split_bind Hrun html s2 Hh. apply self_ok in Hh as [-> ->].
  split_bind Hrun title s2 Ht. apply self_ok in Ht as [-> ->].
  cbn [fst snd] in Hrun.
  split_bind Hrun parsed s2 Hp. apply pure_ok in Hp as [Hp ->].
  destruct (Article.html a1) as [h|] eqn:Hhtml; [|discriminate].
  split_bind Hrun content s2 Htop. destruct s2 as [a2 w2].
  assert (Hsame2 : Article.html a2 = Some h ∧
            Article.images a2 = Article.images a1
              ++ (if newspaper.has_top_image parsed
                  then [image_filename (newspaper.top_image parsed)] else [])).
  { destruct (newspaper.has_top_image parsed).
    - split_bind Htop fn s3 Hdi. destruct s3 as [a3 w3].
      apply lift_ok in Hdi as [Hdi ->]. apply download_image_ok in Hdi as [-> _].
      split_bind Htop u' s4 Hup. apply update_ok in Hup as ->.
      unfold mret, M_ret in Htop. injection Htop as _ <- <-.
      split; [exact Hhtml | reflexivity].
    - unfold mret, M_ret in Htop. injection Htop as _ <- <-.
      rewrite app_nil_r. split; [exact Hhtml | reflexivity]. }
  destruct Hsame2 as [Hh2 Hi2].
  split_bind Hrun rate s3 Hrate. apply pure_ok in Hrate as [Hrate ->].
  split_bind Hrun ps s3 Hloop. destruct s3 as [a3 w3].
  pose proof (image_loop_images _ _ _ _ _ _ _ Hloop) as Hi3.
  apply image_loop_ok in Hloop as [_ (_ & _ & Hh3 & _)]. cbn [fst] in Hi3, Hh3.
  apply update_ok in Hrun. injection Hrun as -> ->.
  exists h, parsed. rewrite <- Hurl.
  split; [cbn [Article.html Article.set_content]; congruence|].
  split; [exact Hp|].
  cbn [Article.images Article.set_content]. rewrite Hi3, Hi2, Himgs, <- app_assoc.
  reflexivity.
Qed.

End Text.

(** * More of the program at work *)

Lemma all_have_items_Forall l :
  all_have_items l = true → Forall (λ s, section_items s ≠ []) l.
Proof.
  unfold all_have_items. induction l as [|s l IH]; cbn [forallb]; [constructor|].
  intros Hb. apply andb_prop in Hb as [Hs Hl].
  constructor; [destruct (section_items s); discriminate | apply IH; exact Hl].
Qed.

(** One paragraph and two images: both files are on disk after the build. *)
Lemma built_one_has_its_images :
  let r := Article_build (H:=Demo.env) (Demo.one, Demo.empty) in
  stored Demo.empty Demo.one ∧ stored r.2.2 r.2.1 ∧
  Article.images r.2.1 = ["images/0cc1-a.jpg"; "images/0cc1-b.jpg"].
Proof.
  cbv zeta. assert (Hs : stored Demo.empty Demo.one) by constructor.
  split; [exact Hs|].
  split; [apply (Article_build_keeps_images_on_disk (H:=Demo.env) _ _ Hs)|].
  vm_compute. reflexivity.
Defined.



(** A second section without content after a first with content. *)
Lemma mixed_issue_no_book :
  let r := build_sections (H:=Demo.env) (Demo.mixed, Demo.empty) in
  ∃ w', assemble (H:=Demo.env) r.2.1 r.2.2 = (Raise IndexError, w') ∧ written w' = [].
Proof.
  cbv zeta.
  destruct (built_sections_run (H:=Demo.env) Demo.mixed Demo.empty)
    as (_ & _ & _ & _ & _ & Hst & _).
  { repeat constructor. }
  set (r := build_sections (H:=Demo.env) (Demo.mixed, Demo.empty)) in *.
  assert (Hsec : Economist.sections r.2.1
                 = [nth 0 (Economist.sections r.2.1) Demo.leaders]
                   ++ nth 1 (Economist.sections r.2.1) Demo.leaders :: [])
    by (vm_compute; reflexivity).
  destruct (assemble_stops_at_empty_section (H:=Demo.env) r.2.1 r.2.2 _ _ _ Hsec)
    as (w' & Hrun & Hw).
  - apply all_have_items_Forall. vm_compute. reflexivity.
  - vm_compute. reflexivity.
  - rewrite Hsec in Hst. exact Hst.
  - discriminate.
  - exists w'. split; [exact Hrun|]. rewrite Hw. vm_compute. reflexivity.
Defined.

(** A cover that is not on the web. *)
Lemma covered_issue_no_book :
  assemble (H:=Demo.env) Demo.covered Demo.empty
  = (Raise RequestException, set_fetched (λ l, l ++ ["http://e.com/cover.jpg"]) Demo.empty).
Proof.
  apply (cover_failure_ends_the_run (H:=Demo.env)); [reflexivity | discriminate | reflexivity].
Defined.

(** The index page of the small site. *)
Lemma site_issue_discovered :
  ∃ e' w',
    Economist_fetch_issue (H:=Site.env) (Economist.new, Demo.empty) = (Ok tt, (e', w')) ∧
    Economist.id e' = "the_economist_2017-01-07" ∧
    Economist.cover_img e' = Some "http://e.com/cover.jpg" ∧
    map Section.title (Economist.sections e') = ["Leaders"; "Briefing"] ∧
    fetched w' = ["http://www.economist.com/printedition/"].
Proof.
  destruct (fetch_issue_discovers (H:=Site.env) Economist.new Demo.empty "<index>" Site.index)
    as (Hrun & _ & _); [reflexivity | reflexivity |].
  eexists _, _. split; [exact Hrun|]. repeat split; vm_compute; reflexivity.
Defined.


(** A page in the table. *)
Lemma warm_page_not_fetched :
  ∃ w', Article_download (H:=Demo.env) (Demo.plain, Demo.warm)
        = (Ok tt, (Article.set_html (Some "<article>plain</article>") Demo.plain, w')) ∧
        fetched w' = [] ∧ rows w' = rows Demo.warm.
Proof.
  destruct (cached_page_is_not_fetched (H:=Demo.env) Demo.plain Demo.warm
              "<article>plain</article>") as (w' & Hrun & Hf & Hr & _).
  - vm_compute. reflexivity.
  - discriminate.
  - reflexivity.
  - exists w'. split; [exact Hrun|]. split; [exact Hf | exact Hr].
Defined.

(** Six paragraphs and two images: eight entries, the text in order. *)
Lemma six_keeps_its_text :
  let r := Article_build (H:=Demo.env) (Demo.six, Demo.empty) in
  r.1 = Ok tt ∧
  ∃ ps, ["p1"; "p2"; "p3"; "p4"; "p5"; "p6"] `sublist_of` ps ∧ length ps = 8%nat.
Proof.
  cbv zeta.
  assert (Hrun : Article_build (H:=Demo.env) (Demo.six, Demo.empty)
                 = (Ok tt, ((Article_build (H:=Demo.env) (Demo.six, Demo.empty)).2.1,
                            (Article_build (H:=Demo.env) (Demo.six, Demo.empty)).2.2)))
    by (vm_compute; reflexivity).
  split; [rewrite Hrun; reflexivity|].
  destruct (build_keeps_the_text (H:=Demo.env) _ _ _ _ Hrun)
    as (h & parsed & ps & Hh & Hp & Hrest).
  vm_compute in Hh. injection Hh as <-.
  vm_compute in Hp. injection Hp as <-.
  cbv zeta in Hrest. destruct Hrest as (_ & Hsub & _ & Hlen).
  exists ps. split; [exact Hsub | exact Hlen].
Defined.

(** The image list of the same article. *)
Lemma six_lists_its_images :
  let r := Article_build (H:=Demo.env) (Demo.six, Demo.empty) in
  r.1 = Ok tt ∧
  Article.images r.2.1 = [image_filename (H:=Demo.env) "http://e.com/a.jpg";
                          image_filename (H:=Demo.env) "http://e.com/b.jpg"].
Proof.
  cbv zeta.
  assert (Hrun : Article_build (H:=Demo.env) (Demo.six, Demo.empty)
                 = (Ok tt, ((Article_build (H:=Demo.env) (Demo.six, Demo.empty)).2.1,
                            (Article_build (H:=Demo.env) (Demo.six, Demo.empty)).2.2)))
    by (vm_compute; reflexivity).
  split; [rewrite Hrun; reflexivity|].
  destruct (build_lists_its_images (H:=Demo.env) _ _ _ _ Hrun)
    as (h & parsed & Hh & Hp & Himgs).
  vm_compute in Hh. injection Hh as <-.
  vm_compute in Hp. injection Hp as <-.
  rewrite Himgs. reflexivity.
Defined.
